(** * A private blockchain (star registry): the ledger of [src/blockchain.js]

    The development embeds the [Blockchain] class of [src/blockchain.js] as
    Rocq functions over an explicit state (the [chain] array and the [height]
    counter) and proves the properties of the ledger, of the ownership
    protocol ([submitStar]), of the chain validator ([validateChain]) and of
    the owner query ([getStarsByWalletAddress]).

    Conventions of the embedding:
    - a JavaScript string is a [string] (code units below 256);
    - a JavaScript number that the code only ever uses as an integer is a [Z];
      [NaN] is [None] in an [option Z]; the one division of the code is done
      in [Q];
    - [null] / [undefined] in a field that otherwise holds a value is [None];
    - a promise is the value it settles with, or [Pending] when it never
      settles;
    - the libraries the class calls ([SHA256], [JSON.stringify] on a block,
      the body codec, [bitcoinMessage.verify]) are the fields of a class of
      collaborators, over which every definition and theorem is generic;
    - a call that may throw ([JSON.parse], [bitcoinMessage.verify], a
      property read on [null] or [undefined]) gives a completion, and an
      exception inside the async executor of a promise leaves the promise
      pending;
    - the clock is an argument: each reading of [new Date().getTime()] is a
      [now] in milliseconds;
    - a block is a value.  The code mutates the block object it is given
      and stores that same object, but every block that reaches [_addBlock]
      was just built by [new BlockClass.Block(...)] in [initializeChain] or
      [submitStar], so the argument never aliases a stored block;
    - the console is not modelled, except for the two error messages of
      [submitStar], the only place where the code tells a time-lapsed
      rejection from a failed verification (both reject with [null]).  The
      other [console.log] lines are diagnostics; they are taken not to
      throw, which holds as long as no printed value shadows the standard
      [toString]. *)

From Stdlib Require Import ZArith QArith Lia List Bool Ascii String Sorted.
From stdpp Require Import base list strings.

Import ListNotations.
Local Open Scope string_scope.
Local Open Scope list_scope.
Local Open Scope Z_scope.

(** ** JavaScript strings and numbers *)

Module JS.

(** [s.split(sep)] for a one-character separator: the fields between the
    occurrences of [sep]; never empty ([''.split(':')] is [['']]). *)
Fixpoint split (sep : ascii) (s : string) : list string :=
  match s with
  | EmptyString => [EmptyString]
  | String c rest =>
      if Ascii.eqb c sep then EmptyString :: split sep rest
      else match split sep rest with
           | [] => [String c EmptyString]
           | field :: fields => String c field :: fields
           end
  end.

(** [s.slice(0, -k)]: the string without its last [k] characters (empty
    when it has no more than [k]). *)
Definition slice0 (k : nat) (s : string) : string :=
  let l := list_ascii_of_string s in
  string_of_list_ascii (take (length l - k) l).

(** Decimal digits of a natural number, least significant first.  The
    fuel bounds the number of digits. *)
Fixpoint digits_le (fuel : nat) (n : Z) : list Z :=
  match fuel with
  | O => []
  | S fuel' =>
      (n mod 10) :: (if n / 10 =? 0 then [] else digits_le fuel' (n / 10))
  end.

Definition digit_char (d : Z) : ascii := ascii_of_nat (48 + Z.to_nat d).

Definition decimal (n : Z) : string :=
  string_of_list_ascii
    (map digit_char (rev (digits_le (S (Z.to_nat (Z.log2 n))) n))).

(** [n.toString()] for an integer-valued number (below 10^21 in
    magnitude, where JavaScript prints plain decimal digits). *)
Definition toString (n : Z) : string :=
  if n <? 0 then String "-" (decimal (- n)) else decimal n.

(** White space that [parseInt] skips (code units below 256). *)
Definition is_white_space (c : ascii) : bool :=
  let n := nat_of_ascii c in
  ((9 <=? n)%nat && (n <=? 13)%nat) || (n =? 32)%nat || (n =? 160)%nat.

(** Value of a character as a digit in the given radix. *)
Definition digit_val (radix : Z) (c : ascii) : option Z :=
  let n := Z.of_nat (nat_of_ascii c) in
  let v := if (48 <=? n) && (n <=? 57) then Some (n - 48)
           else if (97 <=? n) && (n <=? 122) then Some (n - 87)
           else if (65 <=? n) && (n <=? 90) then Some (n - 55)
           else None in
  match v with
  | Some d => if d <? radix then Some d else None
  | None => None
  end.

(** The longest prefix of digits, read most significant first. *)
Fixpoint parse_digits (radix acc : Z) (l : list ascii) : Z :=
  match l with
  | [] => acc
  | c :: l' =>
      match digit_val radix c with
      | Some d => parse_digits radix (acc * radix + d) l'
      | None => acc
      end
  end.

Fixpoint skip_white_space (l : list ascii) : list ascii :=
  match l with
  | c :: l' => if is_white_space c then skip_white_space l' else l
  | [] => []
  end.

(** [parseInt(s)] without a radix argument; [None] is [NaN].  The result
    is the exact integer: JavaScript rounds it to a double beyond 2^53,
    which changes no comparison made in this program. *)
Definition parseInt_string (s : string) : option Z :=
  let l := skip_white_space (list_ascii_of_string s) in
  let '(sign, l) :=
    match l with
    | "-"%char :: l' => (-1, l')
    | "+"%char :: l' => (1, l')
    | _ => (1, l)
    end in
  let '(radix, l) :=
    match l with
    | "0"%char :: "x"%char :: l' => (16, l')
    | "0"%char :: "X"%char :: l' => (16, l')
    | _ => (10, l)
    end in
  match l with
  | [] => None
  | c :: _ =>
      match digit_val radix c with
      | Some _ => Some (sign * parse_digits radix 0 l)
      | None => None
      end
  end.

(** [parseInt(x)] where [x] may be [undefined]: the argument is first
    converted to a string. *)
Definition parseInt (x : option string) : option Z :=
  parseInt_string (default "undefined" x).

End JS.

(** ** Values, completions and promises *)

#[local] Set Warnings "-register-all".

(** A value produced by [JSON.parse]. *)
Inductive JSON : Type :=
| JNull
| JBool (b : bool)
| JNumber (q : Q)
| JString (s : string)
| JArray (items : list JSON)
| JObject (fields : list (string * JSON)).

Inductive JSError : Type := TypeError | SyntaxError | Error.

(** The completion of a piece of code that may throw. *)
Inductive Completion (A : Type) : Type :=
| Normal (a : A)
| Throw (e : JSError).
Arguments Normal {A} a.
Arguments Throw {A} e.

(** Sequencing: a statement that throws ends the ones after it. *)
#[global] Instance Completion_bind : MBind Completion :=
  fun A B (k : A -> Completion B) (c : Completion A) =>
    match c with
    | Normal a => k a
    | Throw e => Throw e
    end.

(** The state in which a promise ends up.  [Pending] is a promise that is
    never settled. *)
Inductive Promise (A : Type) : Type :=
| Resolved (a : A)
| Rejected (reason : JSON)
| Pending.
Arguments Resolved {A} a.
Arguments Rejected {A} reason.
Arguments Pending {A}.

(** [new Promise(async (resolve, reject) => { ... })]: the executor is an
    async function, so an exception thrown in its body rejects the promise
    of the executor, which nobody holds; the promise under construction is
    then never settled. *)
Definition async_executor {A : Type} (body : Completion (Promise A))
  : Promise A :=
  match body with
  | Normal p => p
  | Throw _ => Pending
  end.

(** [a[i]] followed by a property read: reading a property of [undefined]
    throws a [TypeError]. *)
Definition element {A : Type} (a : list A) (i : nat) : Completion A :=
  match a !! i with
  | Some x => Normal x
  | None => Throw TypeError
  end.

Fixpoint assoc (key : string) (fields : list (string * JSON)) : option JSON :=
  match fields with
  | [] => None
  | (k, v) :: rest => if String.eqb k key then Some v else assoc key rest
  end.

(** [v.key] for a parsed value [v]; [None] is [undefined]. *)
Definition property (v : JSON) (key : string) : Completion (option JSON) :=
  match v with
  | JNull => Throw TypeError
  | JObject fields => Normal (assoc key fields)
  | _ => Normal None
  end.

(** ** Blocks *)

Module BlockClass.

(** The five fields of a block object. [hash] and [previousBlockHash] are
    [None] while they hold [null]. *)
Record Block : Type := mkBlock {
  hash : option string;
  height : Z;
  body : string;
  time : string;
  previousBlockHash : option string
}.

Definition set_hash (h : option string) (b : Block) : Block :=
  mkBlock h (height b) (body b) (time b) (previousBlockHash b).
Definition set_height (n : Z) (b : Block) : Block :=
  mkBlock (hash b) n (body b) (time b) (previousBlockHash b).
Definition set_time (t : string) (b : Block) : Block :=
  mkBlock (hash b) (height b) (body b) t (previousBlockHash b).
Definition set_previousBlockHash (h : option string) (b : Block) : Block :=
  mkBlock (hash b) (height b) (body b) (time b) h.

End BlockClass.
Export BlockClass(Block).

(** The libraries the class is written against. *)
Class Collaborators : Type := {
  (** [SHA256(s).toString()] of crypto-js *)
  SHA256 : string -> string;
  (** [JSON.stringify] applied to a block object *)
  JSON_stringify : Block -> string;
  (** the body encoding of a block's data (hex of its JSON text) *)
  encode : JSON -> string;
  (** [hex2ascii] *)
  hex2ascii : string -> string;
  (** [JSON.parse]; [None] when it throws a [SyntaxError] *)
  JSON_parse : string -> option JSON;
  (** [bitcoinMessage.verify(message, address, signature)]: whether the
      signature is one of the message by the address; the library throws
      on a signature or an address that is malformed *)
  verify : string -> string -> string -> Completion bool;
  (** [v == s] for a number, boolean, array or object [v] and a string
      [s]: the clauses of the abstract equality comparison that coerce *)
  coercing_equals : JSON -> string -> Completion bool
}.

(** [x === y] on values that are strings or [null]. *)
Definition strict_equals (x y : option string) : bool :=
  match x, y with
  | Some s, Some t => String.eqb s t
  | None, None => true
  | _, _ => false
  end.

(** [x == s] where [x] was read from a parsed value and [s] is a string. *)
Definition loose_equals `{Collaborators} (x : option JSON) (s : string)
  : Completion bool :=
  match x with
  | None => Normal false
  | Some JNull => Normal false
  | Some (JString t) => Normal (String.eqb t s)
  | Some v => coercing_equals v s
  end.

(** Modelled from the spec: the constructor of the block class, whose file
    ([block.js]) is not part of the sources.  A new block carries the
    encoded data as its body; its hash and its previous hash are the empty
    sentinel ([null]) until [_addBlock] assigns them.  The initial height
    and time are overwritten by [_addBlock] before the block is hashed or
    stored. *)
Definition new_Block `{Collaborators} (data : JSON) : Block :=
  BlockClass.mkBlock None 0 (encode data) "0" None.

(** Modelled from the spec: the self-check of the block class ([validate]
    in [block.js], not part of the sources), which recomputes the hash of
    the block from its stored fields, the stored hash excluded, and compares
    it with the stored hash. *)
Definition validate `{Collaborators} (b : Block) : bool :=
  strict_equals (BlockClass.hash b)
    (Some (SHA256 (JSON_stringify (BlockClass.set_hash None b)))).

(** ** The blockchain *)

Record Blockchain : Type := mkBlockchain {
  chain : list Block;
  height : Z
}.

(** What the star query returns for a block: [{address, star}]. *)
Record Star : Type := mkStar {
  star_address : option JSON;
  star_star : option JSON
}.

(** What [validateChain] resolves with: [true], or the list of errors. *)
Inductive Validation : Type :=
| ValidTrue
| ErrorLog (errorLog : list nat).

Definition null : JSON := JNull.

(** [new Date().getTime().toString().slice(0,-3)]: the clock reading [now]
    (milliseconds) as a string of seconds. *)
Definition epoch_seconds (now : Z) : string := JS.slice0 3 (JS.toString now).

Section Operations.

Context `{Collaborators}.

Definition _addBlock (now : Z) (self : Blockchain) (block : Block)
  : Blockchain * Promise Block :=
  let block := BlockClass.set_time (epoch_seconds now) block in
  let block := BlockClass.set_height (Z.of_nat (length (chain self))) block in
  let block :=
    if (0 <? length (chain self))%nat
    then BlockClass.set_previousBlockHash
           (from_option BlockClass.hash None (last (chain self))) block
    else block in
  let block :=
    BlockClass.set_hash (Some (SHA256 (JSON_stringify block))) block in
  (mkBlockchain (chain self ++ [block]) (height self + 1), Resolved block).

Definition genesis_data : JSON := JObject [("data", JString "Genesis Block")].

Definition initializeChain (now : Z) (self : Blockchain) : Blockchain :=
  if height self =? -1
  then fst (_addBlock now self (new_Block genesis_data))
  else self.

Definition constructor (now : Z) : Blockchain :=
  initializeChain now (mkBlockchain [] (-1)).

Definition getChainHeight (self : Blockchain) : Promise Z :=
  Resolved (height self).

Definition requestMessageOwnershipVerification (now : Z) (address : string)
  : Promise string :=
  Resolved (address ++ ":" ++ epoch_seconds now ++ ":starRegistry")%string.

Definition err_time_lapsed : string :=
  "Error submitting star:  time lapsed more than 5 minutes.".
Definition err_verification : string :=
  "Error submitting star: message verification failed.".

Definition sent_time (message : string) : option Z :=
  JS.parseInt (JS.split ":" message !! 1%nat).

Definition curr_time (now : Z) : option Z :=
  JS.parseInt (Some (epoch_seconds now)).

(** [(curr_time - sent_time)/60]; [None] is [NaN]. *)
Definition minutes_laps (curr sent : option Z) : option Q :=
  match curr, sent with
  | Some c, Some s => Some (inject_Z (c - s) / 60)%Q
  | _, _ => None
  end.

(** [m < 5]; a comparison with [NaN] is false. *)
Definition less_than_5 (m : option Q) : bool :=
  match m with
  | Some q => if Qlt_le_dec q 5 then true else false
  | None => false
  end.

Definition star_data (address signature message : string) (star : JSON)
  : JSON :=
  JObject [("address", JString address); ("signature", JString signature);
           ("message", JString message); ("star", star)].

(** [submitStar]: [now] is the clock reading of [submitStar] itself and
    [now_add] the later reading of [_addBlock].  The result is the new
    state, the promise, and the error messages written to the console.
    The body is the async executor of the promise: when the call of
    [bitcoinMessage.verify] throws, neither [resolve] nor [reject] is
    reached, the promise is never settled and no error message is
    written. *)
Definition submitStar (now now_add : Z) (self : Blockchain)
    (address message signature : string) (star : JSON)
  : Blockchain * Promise Block * list string :=
  let sent_time := sent_time message in
  let curr_time := curr_time now in
  let minutes_laps := minutes_laps curr_time sent_time in
  if less_than_5 minutes_laps then
    match verify message address signature with
    | Normal ver =>
        if ver then
          let '(self', newBlock) :=
            _addBlock now_add self
              (new_Block (star_data address signature message star)) in
          (self', newBlock, [])
        else (self, Rejected null, [err_verification])
    | Throw e => (self, async_executor (Throw e), [])
    end
  else (self, Rejected null, [err_time_lapsed]).

Definition getBlockByHash (self : Blockchain) (hash : string)
  : Promise (option Block) :=
  Resolved (head (filter
    (fun b => strict_equals (BlockClass.hash b) (Some hash) = true)
    (chain self))).

Definition getBlockByHeight (self : Blockchain) (height : Z)
  : Promise (option Block) :=
  Resolved (head (filter (fun p => BlockClass.height p = height)
    (chain self))).

(** [for (let i = lo; i <= hi; i++)]: the indices the loop visits. *)
Definition indices (lo : nat) (hi : Z) : list nat :=
  seq lo (Z.to_nat (hi + 1 - Z.of_nat lo)).

(** The body of the loop of [getStarsByWalletAddress], iterated over the
    remaining indices. *)
Fixpoint stars_loop (self : Blockchain) (address : string)
    (idxs : list nat) (stars : list Star) : Completion (list Star) :=
  match idxs with
  | [] => Normal stars
  | i :: rest =>
      blocki ← element (chain self) i;
      let body := BlockClass.body blocki in
      decode_body ←
        match JSON_parse (hex2ascii body) with
        | Some v => Normal v
        | None => Throw SyntaxError
        end;
      thisadd ← property decode_body "address";
      same ← loose_equals thisadd address;
      if (same : bool) then
        star ← property decode_body "star";
        stars_loop self address rest (stars ++ [mkStar thisadd star])
      else stars_loop self address rest stars
  end.

Definition getStarsByWalletAddress (self : Blockchain) (address : string)
  : Promise (list Star) :=
  async_executor (
    let chainlen := height self in
    stars ← stars_loop self address (indices 1 chainlen) [];
    Normal (Resolved stars)).

(** The body of the loop of [validateChain], iterated over the remaining
    indices; the iteration at [i == chainlen] ends with [break]. *)
Fixpoint validate_loop (self : Blockchain) (chainlen : Z)
    (idxs : list nat) (errorLog : list nat) : Completion (list nat) :=
  match idxs with
  | [] => Normal errorLog
  | i :: rest =>
      blocki ← element (chain self) i;
      let blocki_valid := validate blocki in
      if Z.of_nat i =? chainlen then
        Normal (if negb blocki_valid then errorLog ++ [i] else errorLog)
      else
        let blockHash := BlockClass.hash blocki in
        next ← element (chain self) (i + 1);
        let prevHash := BlockClass.previousBlockHash next in
        validate_loop self chainlen rest
          (if negb blocki_valid || negb (strict_equals blockHash prevHash)
           then errorLog ++ [i] else errorLog)
  end.

Definition validateChain (self : Blockchain) : Promise Validation :=
  async_executor (
    let chainlen := height self in
    errorLog ← validate_loop self chainlen (indices 0 chainlen) [];
    Normal (if (length errorLog =? 0)%nat then Resolved ValidTrue
            else Resolved (ErrorLog errorLog))).

End Operations.

(** ** The operations of the class as a transition system *)

(** A call of a public method, with the clock readings it makes. *)
Inductive Op : Type :=
| OpInitializeChain (now : Z)
| OpGetChainHeight
| OpRequestMessageOwnershipVerification (now : Z) (address : string)
| OpSubmitStar (now now_add : Z) (address message signature : string)
    (star : JSON)
| OpGetBlockByHash (hash : string)
| OpGetBlockByHeight (height : Z)
| OpGetStarsByWalletAddress (address : string)
| OpValidateChain.

(** The state a call leaves behind: only [initializeChain] and [submitStar]
    assign to [this.chain] or [this.height]. *)
Definition run `{Collaborators} (op : Op) (self : Blockchain) : Blockchain :=
  match op with
  | OpInitializeChain now => initializeChain now self
  | OpSubmitStar now now_add address message signature star =>
      (submitStar now now_add self address message signature star).1.1
  | _ => self
  end.

(** The states of a blockchain object: what [new Blockchain()] builds, and
    what the calls of its methods make of it. *)
Inductive reachable `{Collaborators} : Blockchain -> Prop :=
| reachable_new (now : Z) : reachable (constructor now)
| reachable_run (op : Op) (self : Blockchain) :
    reachable self -> reachable (run op self).

(** The counter and the array agree: [height] is the index of the last
    block. *)
Definition consistent (self : Blockchain) : Prop :=
  height self = Z.of_nat (length (chain self)) - 1.

(** Every block but the first carries the hash of the block before it, and
    the first carries the empty sentinel. *)
Definition linked (l : list Block) : Prop :=
  (forall b0, l !! 0%nat = Some b0 -> BlockClass.previousBlockHash b0 = None) /\
  (forall (i : nat) bi bprev, (1 <= i)%nat ->
     l !! i = Some bi -> l !! (i - 1)%nat = Some bprev ->
     BlockClass.previousBlockHash bi = BlockClass.hash bprev).

(** The heights of the blocks are their indices. *)
Definition heights_contiguous (l : list Block) : Prop :=
  forall (i : nat) b, l !! i = Some b -> BlockClass.height b = Z.of_nat i.

(** A block index that [validateChain] reports: the block fails its self
    check, or it has a successor whose previous hash is not its hash. *)
Definition violation `{Collaborators} (l : list Block) (i : nat) : Prop :=
  exists b, l !! i = Some b /\
    (validate b = false \/
     exists next, l !! (i + 1)%nat = Some next /\
       BlockClass.hash b <> BlockClass.previousBlockHash next).

(** An untampered chain: every block passes its self check and every link
    to the previous block is intact. *)
Definition untampered `{Collaborators} (l : list Block) : Prop :=
  (forall (i : nat) b, l !! i = Some b -> validate b = true) /\
  (forall (i : nat) b next, l !! i = Some b -> l !! (i + 1)%nat = Some next ->
     BlockClass.previousBlockHash next = BlockClass.hash b).

(** The body of a block decodes into a claim record: an object whose
    [address] is a string. *)
Definition decodes_to `{Collaborators} (b : Block)
    (record : list (string * JSON)) : Prop :=
  JSON_parse (hex2ascii (BlockClass.body b)) = Some (JObject record) /\
  exists a, assoc "address" record = Some (JString a).

Definition owned_by (address : string) (record : list (string * JSON)) : bool :=
  match assoc "address" record with
  | Some (JString a) => String.eqb a address
  | _ => false
  end.

(** The owner query as the specification words it, over the decoded claim
    records of the blocks after genesis, in ledger order: the records whose
    address is the queried one, each as its address and star. *)
Definition listClaimsByOwner (records : list (list (string * JSON)))
    (address : string) : list Star :=
  map (fun r => mkStar (assoc "address" r) (assoc "star" r))
      (List.filter (owned_by address) records).

(** The body of every block after genesis is an encoded claim. *)
Definition bodies_encoded `{Collaborators} (l : list Block) : Prop :=
  forall (i : nat) b, (1 <= i)%nat -> l !! i = Some b ->
    exists address signature message star,
      BlockClass.body b = encode (star_data address signature message star).

(** What holds of every state of the object. *)
Definition invariant `{Collaborators} (self : Blockchain) : Prop :=
  consistent self /\ linked (chain self)
  /\ heights_contiguous (chain self) /\ untampered (chain self).

(** The boolean form of [violation], as the loop of [validateChain]
    computes it. *)
Definition violationb `{Collaborators} (l : list Block) (i : nat) : bool :=
  match l !! i with
  | None => false
  | Some b =>
      negb (validate b)
      || match l !! (i + 1)%nat with
         | None => false
         | Some next =>
             negb (strict_equals (BlockClass.hash b)
                                 (BlockClass.previousBlockHash next))
         end
  end.

(** A string without a colon, as an address is. *)
Definition no_colon (s : string) : Prop :=
  Forall (fun c => c <> ":"%char) (list_ascii_of_string s).

(** ** Decimal notation *)

(** The number a list of digits denotes, least significant digit first. *)
Definition value_le (ds : list Z) : Z :=
  foldr (fun d acc => acc * 10 + d) 0 ds.

Definition is_digit (d : Z) : Prop := 0 <= d < 10.

(** ** Sequences of calls, and bodies that are not claim records *)

(** A sequence of calls, the first of the list first. *)
Definition run_all `{Collaborators} (ops : list Op) (self : Blockchain)
  : Blockchain :=
  foldl (fun s op => run op s) self ops.






(** ** A concrete set of collaborators, to run the model on examples *)

Module Toy.

Definition show_hash (h : option string) : string :=
  match h with Some s => s | None => "null" end.

Definition stringify (b : Block) : string :=
  (show_hash (BlockClass.hash b) ++ "," ++ JS.toString (BlockClass.height b)
   ++ "," ++ BlockClass.body b ++ "," ++ BlockClass.time b ++ ","
   ++ show_hash (BlockClass.previousBlockHash b))%string.

(** Bodies are [address|star] for a claim with a string star, and
    [genesis] for anything else. *)
Definition toy_encode (data : JSON) : string :=
  match data with
  | JObject [("address", JString a); _; _; ("star", JString s)] =>
      (a ++ "|" ++ s)%string
  | _ => "genesis"
  end.

Definition toy_parse (s : string) : option JSON :=
  match JS.split "|" s with
  | [a; st] => Some (JObject [("address", JString a); ("star", JString st)])
  | [g] => if String.eqb g "genesis"
           then Some (JObject [("data", JString "Genesis Block")])
           else None
  | _ => None
  end.

(** A signature is well formed when it is at least as long as the
    message, and the check throws on one that is not; a well-formed
    signature verifies when it is the message followed by the address. *)
Definition toy_verify (message address signature : string)
  : Completion bool :=
  if (String.length signature <? String.length message)%nat
  then Throw Error
  else Normal (String.eqb signature (message ++ address)%string).

Definition collaborators : Collaborators := {|
  SHA256 := fun s => ("#" ++ s)%string;
  JSON_stringify := stringify;
  encode := toy_encode;
  hex2ascii := fun s => s;
  JSON_parse := toy_parse;
  verify := toy_verify;
  coercing_equals := fun _ _ => Normal false
|}.

Definition t0 : Z := 1700000000000.

(** A ledger with genesis and two claims, of two owners. *)
Definition ledger1 : Blockchain :=
  (@submitStar collaborators (t0 + 20000) (t0 + 20001)
    (@constructor collaborators t0)
    "alice" "alice:1700000010:starRegistry"
    "alice:1700000010:starRegistryalice" (JString "Vega")).1.1.

Definition ledger2 : Blockchain :=
  (@submitStar collaborators (t0 + 90000) (t0 + 90002) ledger1
    "bob" "bob:1700000080:starRegistry"
    "bob:1700000080:starRegistrybob" (JString "Deneb")).1.1.

(** The second ledger with the body of its block 1 overwritten. *)
Definition tamper_body (s : string) (b : Block) : Block :=
  BlockClass.mkBlock (BlockClass.hash b) (BlockClass.height b) s
    (BlockClass.time b) (BlockClass.previousBlockHash b).

Definition corrupted : Blockchain :=
  mkBlockchain (alter (tamper_body "a|b|c") 1%nat (chain ledger2))
               (height ledger2).


(** A challenge for alice, its signature, and the same challenge with a
    fourth field. *)
Definition msg : string := "alice:1700000010:starRegistry".
Definition signed_msg : string := (msg ++ "alice")%string.
Definition msg4 : string := "alice:1700000010:starRegistry:extra".
Definition signed_msg4 : string := (msg4 ++ "alice")%string.

(** The block that the second submission appended. *)
Definition bob_msg : string := "bob:1700000080:starRegistry".
Definition bob_signed : string := (bob_msg ++ "bob")%string.

Definition bob_block : Block := Eval vm_compute in
  match (@submitStar collaborators (t0 + 90000) (t0 + 90002) ledger1
           "bob" bob_msg bob_signed (JString "Deneb")).1.2 with
  | Resolved b => b
  | _ => BlockClass.mkBlock None 0 "" "" None
  end.

Definition alice_block : Block := Eval vm_compute in
  default bob_block (chain ledger2 !! 1%nat).

Definition genesis_block : Block := Eval vm_compute in
  default bob_block (chain ledger2 !! 0%nat).


(** The same collaborators with a parser that also reads [null]. *)
Definition with_null : Collaborators := {|
  SHA256 := fun s => ("#" ++ s)%string;
  JSON_stringify := stringify;
  encode := toy_encode;
  hex2ascii := fun s => s;
  JSON_parse := fun s => if String.eqb s "null" then Some JNull
                         else toy_parse s;
  verify := toy_verify;
  coercing_equals := fun _ _ => Normal false
|}.

(** The second ledger with [null] as the body of block 1. *)
Definition null_body : Blockchain :=
  mkBlockchain (alter (tamper_body "null") 1%nat (chain ledger2))
               (height ledger2).

(** The last block of the second ledger with a forged previous hash. *)
Definition forged_link : Block :=
  BlockClass.set_previousBlockHash (Some "forged") bob_block.

End Toy.

(** * Properties *)

(** ** Printing and reading decimal numbers *)

Section Decimal.

Lemma half_below (fuel : nat) (n : Z) :
  0 <= n < 2 ^ Z.of_nat (S fuel) -> n / 10 < 2 ^ Z.of_nat fuel.
Proof.
  intros [Hn Hlt].
  rewrite Nat2Z.inj_succ, Z.pow_succ_r in Hlt by lia.
  apply Z.div_lt_upper_bound; lia.
Qed.

Lemma digits_le_value (fuel : nat) :
  forall n, 0 <= n < 2 ^ Z.of_nat fuel ->
    value_le (JS.digits_le fuel n) = n.
Proof.
  induction fuel as [|fuel IH]; intros n Hn.
  - simpl in *. lia.
  - cbn [JS.digits_le value_le foldr].
    destruct (Z.eqb_spec (n / 10) 0) as [Hz|Hz].
    + simpl. pose proof (Z.div_mod n 10). lia.
    + fold (value_le (JS.digits_le fuel (n / 10))).
      rewrite IH.
      * pose proof (Z.div_mod n 10). lia.
      * split; [apply Z.div_pos; lia | apply half_below; lia].
Qed.

Lemma digits_le_digits (fuel : nat) :
  forall n, Forall is_digit (JS.digits_le fuel n).
Proof.
  induction fuel as [|fuel IH]; intros n; cbn [JS.digits_le].
  - constructor.
  - constructor.
    + unfold is_digit. apply Z.mod_pos_bound. lia.
    + destruct (n / 10 =? 0); [constructor | apply IH].
Qed.

(** The digits do not depend on the fuel, once there is enough of it. *)
Lemma digits_le_fuel (f1 : nat) :
  forall (f2 : nat) n, 0 < n ->
    n < 2 ^ Z.of_nat f1 -> n < 2 ^ Z.of_nat f2 ->
    JS.digits_le f1 n = JS.digits_le f2 n.
Proof.
  induction f1 as [|f1 IH]; intros f2 n Hpos H1 H2.
  - simpl in H1. lia.
  - destruct f2 as [|f2]; [simpl in H2; lia|].
    cbn [JS.digits_le]. f_equal.
    destruct (Z.eqb_spec (n / 10) 0) as [Hz|Hz]; [reflexivity|].
    assert (0 <= n / 10) by (apply Z.div_pos; lia).
    apply IH; [lia | apply half_below; lia | apply half_below; lia].
Qed.

(** Above 999 the last three digits are those of the milliseconds. *)
Lemma digits_le_thousand (fuel fuel' : nat) (n : Z) :
  1000 <= n -> n < 2 ^ Z.of_nat fuel ->
  n / 1000 < 2 ^ Z.of_nat fuel' ->
  JS.digits_le fuel n =
    n mod 10 :: (n / 10) mod 10 :: (n / 100) mod 10
      :: JS.digits_le fuel' (n / 1000).
Proof.
  intros Hn Hf Hf'.
  assert (H10 : 1 <= n / 10) by (apply Z.div_le_lower_bound; lia).
  assert (E100 : n / 10 / 10 = n / 100)
    by (rewrite Z.div_div by lia; reflexivity).
  assert (E1000 : n / 100 / 10 = n / 1000)
    by (rewrite Z.div_div by lia; reflexivity).
  assert (H100 : 1 <= n / 100) by (apply Z.div_le_lower_bound; lia).
  assert (H1000 : 1 <= n / 1000) by (apply Z.div_le_lower_bound; lia).
  destruct fuel as [|[|[|fuel]]].
  1-3: exfalso; cbn in Hf; lia.
  cbn [JS.digits_le].
  rewrite E100, E1000.
  destruct (Z.eqb_spec (n / 10) 0); [lia|].
  destruct (Z.eqb_spec (n / 100) 0); [lia|].
  destruct (Z.eqb_spec (n / 1000) 0); [lia|].
  do 3 f_equal.
  apply digits_le_fuel; [lia| |lia].
  assert (Hb : 0 <= n / 10 < 2 ^ Z.of_nat (S (S fuel))).
  { split; [apply Z.div_pos; lia | apply half_below; lia]. }
  assert (Hc : 0 <= n / 100 < 2 ^ Z.of_nat (S fuel)).
  { rewrite <- E100. split; [apply Z.div_pos; lia | apply half_below; lia]. }
  rewrite <- E1000. apply half_below; lia.
Qed.

Lemma is_digit_cases (d : Z) :
  is_digit d ->
  d = 0 \/ d = 1 \/ d = 2 \/ d = 3 \/ d = 4 \/ d = 5 \/ d = 6 \/ d = 7
  \/ d = 8 \/ d = 9.
Proof. unfold is_digit. lia. Qed.

Ltac digit_cases H :=
  apply is_digit_cases in H;
  repeat (destruct H as [H|H]); subst.

Ltac eval_digit_char :=
  repeat match goal with
    | |- context [JS.digit_char ?k] =>
        let c := eval vm_compute in (JS.digit_char k) in
        change (JS.digit_char k) with c
    end;
  repeat (
    cbn -[Z.mul JS.parse_digits JS.is_white_space JS.digit_val];
    match goal with
    | |- context [JS.is_white_space ?c] =>
        let b := eval vm_compute in (JS.is_white_space c) in
        change (JS.is_white_space c) with b
    | |- context [JS.digit_val ?r ?c] =>
        let b := eval vm_compute in (JS.digit_val r c) in
        change (JS.digit_val r c) with b
    end).

Lemma digit_val_char (d : Z) :
  is_digit d -> JS.digit_val 10 (JS.digit_char d) = Some d.
Proof. intros Hd. digit_cases Hd; reflexivity. Qed.

Lemma parse_digits_chars (ds : list Z) :
  Forall is_digit ds ->
  forall acc, JS.parse_digits 10 acc (map JS.digit_char ds)
              = fold_left (fun a d => a * 10 + d) ds acc.
Proof.
  induction 1 as [|d ds Hd _ IH]; intros acc; [reflexivity|].
  cbn [map JS.parse_digits fold_left].
  rewrite digit_val_char by assumption. apply IH.
Qed.

Lemma fold_left_rev_value (ds : list Z) :
  fold_left (fun a d => a * 10 + d) (rev ds) 0 = value_le ds.
Proof.
  induction ds as [|d ds IH]; [reflexivity|].
  cbn [rev value_le foldr]. rewrite fold_left_app. cbn [fold_left].
  rewrite IH. reflexivity.
Qed.

(** [parseInt] reads back a string of decimal digits. *)
Lemma parseInt_string_digits (ds : list Z) :
  ds <> [] -> Forall is_digit ds ->
  JS.parseInt_string (string_of_list_ascii (map JS.digit_char ds))
  = Some (fold_left (fun a d => a * 10 + d) ds 0).
Proof.
  intros Hne Hds.
  rewrite <- (parse_digits_chars ds Hds).
  unfold JS.parseInt_string.
  rewrite list_ascii_of_string_of_list_ascii.
  destruct Hds as [|d ds Hd Hds]; [congruence|].
  cbn [map]. set (tl := map JS.digit_char ds).
  digit_cases Hd.
  2-10: eval_digit_char; rewrite Z.mul_1_l; reflexivity.
  subst tl. destruct Hds as [|d2 ds Hd2 Hds].
  - reflexivity.
  - cbn [map]. set (tl := map JS.digit_char ds).
    digit_cases Hd2; eval_digit_char; rewrite Z.mul_1_l; reflexivity.
Qed.

Lemma slice0_app3 (l : list ascii) (a b c : ascii) :
  JS.slice0 3 (string_of_list_ascii (l ++ [a; b; c]))
  = string_of_list_ascii l.
Proof.
  unfold JS.slice0. rewrite list_ascii_of_string_of_list_ascii.
  f_equal. apply take_app_length'. rewrite length_app. simpl. lia.
Qed.

Lemma log2_fuel (n : Z) :
  0 < n -> n < 2 ^ Z.of_nat (S (Z.to_nat (Z.log2 n))).
Proof.
  intros Hn. pose proof (Z.log2_nonneg n).
  rewrite Nat2Z.inj_succ, Z2Nat.id by assumption.
  apply Z.log2_spec. assumption.
Qed.

(** From the first second of 1970 on, the clock string without its last
    three characters is the decimal notation of the clock in seconds. *)
Lemma epoch_seconds_digits (now : Z) :
  1000 <= now ->
  exists ds, ds <> [] /\ Forall is_digit ds
    /\ epoch_seconds now = string_of_list_ascii (map JS.digit_char ds)
    /\ fold_left (fun a d => a * 10 + d) ds 0 = now / 1000.
Proof.
  intros Hnow.
  assert (Hs : 1 <= now / 1000) by (apply Z.div_le_lower_bound; lia).
  exists (rev (JS.digits_le (S (Z.to_nat (Z.log2 (now / 1000)))) (now / 1000))).
  repeat split.
  - cbn [JS.digits_le]. intros E. apply (f_equal (@length Z)) in E.
    rewrite length_rev in E. simpl in E. lia.
  - apply Forall_rev, digits_le_digits.
  - unfold epoch_seconds, JS.toString.
    destruct (Z.ltb_spec now 0) as [?|_]; [lia|].
    unfold JS.decimal.
    rewrite (digits_le_thousand _ (S (Z.to_nat (Z.log2 (now / 1000)))) now)
      by (try apply log2_fuel; lia).
    cbn [rev]. rewrite <- !app_assoc. cbn [app]. rewrite map_app. cbn [map].
    apply slice0_app3.
  - rewrite fold_left_rev_value, digits_le_value; [reflexivity|].
    split; [lia | apply log2_fuel; lia].
Qed.

Lemma curr_time_seconds (now : Z) :
  1000 <= now -> curr_time now = Some (now / 1000).
Proof.
  intros Hnow.
  destruct (epoch_seconds_digits now Hnow) as (ds & Hne & Hds & E & Hval).
  unfold curr_time, JS.parseInt. cbn [default from_option]. unfold id.
  rewrite E, parseInt_string_digits by assumption.
  rewrite Hval. reflexivity.
Qed.

End Decimal.

(** ** The ledger and its invariants *)

Section Ledger.

Context `{Collaborators}.

(** Five minutes are three hundred seconds: the test on the quotient is a
    test on the elapsed seconds. *)
Lemma less_than_5_seconds (curr sent : Z) :
  less_than_5 (minutes_laps (Some curr) (Some sent)) = true
  <-> curr - sent < 300.
Proof.
  unfold less_than_5, minutes_laps.
  destruct (Qlt_le_dec (inject_Z (curr - sent) / 60) 5) as [Hq|Hq];
    unfold Qlt, Qle, Qdiv, Qmult, Qinv, inject_Z in Hq; simpl in Hq;
    split; intros; try discriminate; try reflexivity; lia.
Qed.

Lemma less_than_5_NaN_sent (curr : option Z) :
  less_than_5 (minutes_laps curr None) = false.
Proof. destruct curr; reflexivity. Qed.

Lemma strict_equals_eq (x y : option string) :
  strict_equals x y = true <-> x = y.
Proof.
  destruct x as [s|], y as [t|]; simpl; try (split; congruence).
  rewrite String.eqb_eq. split; congruence.
Qed.

(** The block that [_addBlock] stores. *)
Lemma _addBlock_stores (now : Z) (self : Blockchain) (block : Block) :
  exists b,
    _addBlock now self block
    = (mkBlockchain (chain self ++ [b]) (height self + 1), Resolved b)
    /\ BlockClass.height b = Z.of_nat (length (chain self))
    /\ BlockClass.body b = BlockClass.body block
    /\ BlockClass.time b = epoch_seconds now
    /\ BlockClass.previousBlockHash b =
         match last (chain self) with
         | Some p => BlockClass.hash p
         | None => BlockClass.previousBlockHash block
         end
    /\ BlockClass.hash b =
         Some (SHA256 (JSON_stringify
                         (BlockClass.set_hash (BlockClass.hash block) b))).
Proof.
  unfold _addBlock. eexists. split; [reflexivity|].
  destruct (chain self) as [|b0 l] eqn:E using rev_ind.
  - simpl. repeat split; reflexivity.
  - rewrite last_snoc, length_app. simpl.
    destruct (Nat.ltb_spec 0 (length l + 1)); [|lia].
    simpl. repeat split; reflexivity.
Qed.

(** The four ways [submitStar] ends. *)
Lemma submitStar_cases now now_add self address message signature star :
  submitStar now now_add self address message signature star =
    if less_than_5 (minutes_laps (curr_time now) (sent_time message)) then
      match verify message address signature with
      | Normal true =>
          ((_addBlock now_add self
              (new_Block (star_data address signature message star))).1,
           (_addBlock now_add self
              (new_Block (star_data address signature message star))).2, [])
      | Normal false => (self, Rejected null, [err_verification])
      | Throw _ => (self, Pending, [])
      end
    else (self, Rejected null, [err_time_lapsed]).
Proof.
  unfold submitStar.
  destruct (less_than_5 _); [|reflexivity].
  destruct (verify _ _ _) as [[|]|e]; reflexivity.
Qed.

(** A call either leaves the state alone or appends one new block. *)
Lemma run_cases (op : Op) (self : Blockchain) :
  run op self = self
  \/ exists now data, run op self = (_addBlock now self (new_Block data)).1.
Proof.
  destruct op; simpl; auto.
  - unfold initializeChain. destruct (height self =? -1); eauto.
  - unfold submitStar.
    destruct (less_than_5 _); [|auto].
    destruct (verify _ _ _) as [[|]|e]; [|auto|auto].
    right. do 2 eexists. unfold _addBlock. reflexivity.
Qed.

Lemma consistent_addBlock now self block :
  consistent self -> consistent (_addBlock now self block).1.
Proof.
  unfold consistent. intros Hc.
  destruct (_addBlock_stores now self block) as (b & -> & _).
  simpl. rewrite length_app. simpl. lia.
Qed.

Lemma heights_addBlock now self block :
  heights_contiguous (chain self) ->
  heights_contiguous (chain (_addBlock now self block).1).
Proof.
  intros Hh i b'.
  destruct (_addBlock_stores now self block) as (b & -> & Hb & _).
  simpl. intros Hi.
  apply lookup_app_Some in Hi as [Hi|[Hlen Hi]]; [eauto|].
  apply list_lookup_singleton_Some in Hi as [Hi <-].
  rewrite Hb. f_equal. lia.
Qed.

Lemma linked_addBlock now self block :
  BlockClass.previousBlockHash block = None ->
  linked (chain self) -> linked (chain (_addBlock now self block).1).
Proof.
  intros Hfresh [H0 Hlink].
  destruct (_addBlock_stores now self block)
    as (b & -> & _ & _ & _ & Hprev & _).
  simpl. split.
  - intros b0 Hb0.
    apply lookup_app_Some in Hb0 as [Hb0|[Hlen Hb0]]; [eauto|].
    apply list_lookup_singleton_Some in Hb0 as [Hi <-].
    assert (chain self = []) as E
      by (destruct (chain self); [reflexivity | simpl in *; lia]).
    rewrite E in Hprev. simpl in Hprev. congruence.
  - intros i bi bprev Hi Hbi Hbprev.
    apply lookup_app_Some in Hbi as [Hbi|[Hlen Hbi]].
    + pose proof (lookup_lt_Some _ _ _ Hbi).
      rewrite lookup_app_l in Hbprev by lia. eauto.
    + apply list_lookup_singleton_Some in Hbi as [Hi' <-].
      assert (i = length (chain self)) as -> by lia.
      rewrite lookup_app_l in Hbprev by lia.
      rewrite last_lookup in Hprev.
      replace (Nat.pred (length (chain self)))
        with (length (chain self) - 1)%nat in Hprev by lia.
      rewrite Hbprev in Hprev. exact Hprev.
Qed.

Lemma validate_addBlock now self block b :
  BlockClass.hash block = None ->
  (_addBlock now self block).2 = Resolved b ->
  validate b = true.
Proof.
  intros Hfresh.
  destruct (_addBlock_stores now self block)
    as (b' & -> & _ & _ & _ & _ & Hhash).
  simpl. intros [= <-]. unfold validate.
  rewrite Hfresh in Hhash. rewrite Hhash at 1.
  apply strict_equals_eq. reflexivity.
Qed.

Lemma untampered_addBlock now self block :
  BlockClass.hash block = None ->
  untampered (chain self) -> untampered (chain (_addBlock now self block).1).
Proof.
  intros Hfresh [Hval Hlink].
  pose proof (validate_addBlock now self block) as Hv.
  destruct (_addBlock_stores now self block)
    as (b & E & _ & _ & _ & Hprev & _).
  rewrite E in Hv |- *. simpl in *. specialize (Hv b Hfresh eq_refl).
  split.
  - intros i b' Hi.
    apply lookup_app_Some in Hi as [Hi|[Hlen Hi]]; [eauto|].
    apply list_lookup_singleton_Some in Hi as [_ <-]. exact Hv.
  - intros i b' next Hi Hnext.
    apply lookup_app_Some in Hnext as [Hnext|[Hlen Hnext]].
    + pose proof (lookup_lt_Some _ _ _ Hnext).
      rewrite lookup_app_l in Hi by lia. eauto.
    + apply list_lookup_singleton_Some in Hnext as [Hi' <-].
      rewrite lookup_app_l in Hi by lia.
      rewrite last_lookup in Hprev.
      replace (Nat.pred (length (chain self))) with i in Hprev by lia.
      rewrite Hi in Hprev. exact Hprev.
Qed.

Lemma invariant_empty : invariant (mkBlockchain [] (-1)).
Proof.
  repeat split; simpl; try reflexivity; intros *;
    rewrite ?lookup_nil; discriminate.
Qed.

Lemma invariant_addBlock now self data :
  invariant self -> invariant (_addBlock now self (new_Block data)).1.
Proof.
  intros (Hc & Hl & Hh & Hu). repeat apply conj.
  - apply consistent_addBlock, Hc.
  - apply linked_addBlock; [reflexivity | exact Hl].
  - apply linked_addBlock; [reflexivity | exact Hl].
  - apply heights_addBlock, Hh.
  - apply untampered_addBlock; [reflexivity | exact Hu].
  - apply untampered_addBlock; [reflexivity | exact Hu].
Qed.

Lemma invariant_run op self : invariant self -> invariant (run op self).
Proof.
  intros Hinv.
  destruct (run_cases op self) as [->|(now & data & ->)];
    [exact Hinv | apply invariant_addBlock, Hinv].
Qed.

Lemma constructor_genesis (now : Z) :
  constructor now = (_addBlock now (mkBlockchain [] (-1))
                                   (new_Block genesis_data)).1.
Proof. reflexivity. Qed.

Lemma reachable_invariant self : reachable self -> invariant self.
Proof.
  induction 1 as [now|op self _ IH].
  - rewrite constructor_genesis.
    apply invariant_addBlock, invariant_empty.
  - apply invariant_run, IH.
Qed.

Lemma reachable_nonempty self : reachable self -> chain self <> [].
Proof.
  induction 1 as [now|op self _ IH].
  - rewrite constructor_genesis.
    destruct (_addBlock_stores now (mkBlockchain [] (-1))
                (new_Block genesis_data)) as (b & -> & _).
    simpl. discriminate.
  - destruct (run_cases op self) as [->|(now & data & ->)]; [exact IH|].
    destruct (_addBlock_stores now self (new_Block data)) as (b & -> & _).
    simpl. intros E. apply app_eq_nil in E as [_ E]. discriminate.
Qed.

(** Every stored block has a hash. *)
Lemma reachable_hashed (self : Blockchain) :
  reachable self ->
  forall (i : nat) b, chain self !! i = Some b ->
    exists h, BlockClass.hash b = Some h.
Proof.
  assert (Hadd : forall now (s : Blockchain) block,
             (forall (i : nat) b, chain s !! i = Some b ->
                exists h, BlockClass.hash b = Some h) ->
             forall (i : nat) b,
               chain (_addBlock now s block).1 !! i = Some b ->
               exists h, BlockClass.hash b = Some h).
  { intros now s block IH i b'.
    destruct (_addBlock_stores now s block)
      as (b & -> & _ & _ & _ & _ & Hhash).
    simpl. intros Hb'.
    apply lookup_app_Some in Hb' as [Hb'|[_ Hb']]; [eauto|].
    apply list_lookup_singleton_Some in Hb' as [_ <-]. eauto. }
  induction 1 as [now|op self Hr IH].
  - rewrite constructor_genesis. apply Hadd.
    intros i b Hb. simpl in Hb. rewrite lookup_nil in Hb. discriminate.
  - destruct (run_cases op self) as [->|(now & data & ->)];
      [exact IH | apply Hadd, IH].
Qed.

Lemma reachable_height (self : Blockchain) : reachable self -> 0 <= height self.
Proof.
  intros Hr. pose proof (reachable_nonempty self Hr) as Hne.
  apply reachable_invariant in Hr as (Hc & _). rewrite Hc.
  destruct (chain self); [contradiction | simpl; lia].
Qed.

Lemma run_cases_submitted (op : Op) (self : Blockchain) :
  0 <= height self ->
  run op self = self
  \/ exists now address signature message star,
       run op self
       = (_addBlock now self
            (new_Block (star_data address signature message star))).1.
Proof.
  intros Hh. destruct op; simpl; auto.
  - unfold initializeChain.
    destruct (Z.eqb_spec (height self) (-1)); [lia | auto].
  - rewrite submitStar_cases.
    destruct (less_than_5 _); [|auto].
    destruct (verify _ _ _) as [[|]|e]; [|auto|auto].
    right. do 5 eexists. reflexivity.
Qed.

Lemma reachable_bodies (self : Blockchain) :
  reachable self -> bodies_encoded (chain self).
Proof.
  induction 1 as [now|op self Hr IH].
  - rewrite constructor_genesis.
    destruct (_addBlock_stores now (mkBlockchain [] (-1))
                (new_Block genesis_data)) as (b & -> & _).
    intros [|i] b' Hi Hb'; [lia | discriminate].
  - destruct (run_cases_submitted op self (reachable_height self Hr))
      as [->|(now & a & sg & m & st & ->)]; [exact IH|].
    destruct (_addBlock_stores now self (new_Block (star_data a sg m st)))
      as (b & -> & _ & Hbody & _).
    intros i b' Hi Hb'. simpl in Hb'.
    apply lookup_app_Some in Hb' as [Hb'|[_ Hb']]; [eauto|].
    apply list_lookup_singleton_Some in Hb' as [_ <-].
    exists a, sg, m, st. exact Hbody.
Qed.

End Ledger.

(** ** The validator and the owner query *)

Section Queries.

Context `{Collaborators}.

Lemma violationb_violation (l : list Block) (i : nat) :
  violationb l i = true <-> violation l i.
Proof.
  unfold violationb, violation. destruct (l !! i) as [b|] eqn:Hb.
  - rewrite orb_true_iff, negb_true_iff. split.
    + intros [Hv|Hl]; exists b; split; auto.
      destruct (l !! (i + 1)%nat) as [next|]; [|discriminate].
      right. exists next. split; [reflexivity|].
      apply negb_true_iff in Hl. intros E.
      apply strict_equals_eq in E. congruence.
    + intros (b' & [= <-] & [Hv|(next & -> & Hne)]); [auto|].
      right. apply negb_true_iff.
      destruct (strict_equals _ _) eqn:E; [|reflexivity].
      apply strict_equals_eq in E. contradiction.
  - split; [discriminate|]. intros (b & [=] & _).
Qed.

Lemma element_Some {A} (l : list A) (i : nat) (x : A) :
  l !! i = Some x -> element l i = Normal x.
Proof. unfold element. intros ->. reflexivity. Qed.

Lemma filter_none {A} (f : A -> bool) (l : list A) :
  (forall x, In x l -> f x = false) -> List.filter f l = [].
Proof.
  induction l as [|x l IH]; intros Hf; [reflexivity|].
  simpl. rewrite (Hf x) by (left; reflexivity).
  apply IH. intros y Hy. apply Hf. right. exact Hy.
Qed.

Lemma indices_seq (lo : nat) (self : Blockchain) :
  consistent self -> (lo <= length (chain self))%nat ->
  indices lo (height self) = seq lo (length (chain self) - lo).
Proof.
  unfold consistent, indices. intros -> Hlo. f_equal. lia.
Qed.

(** The loop of [validateChain] visits every index up to the last and
    appends to the log the indices in violation. *)
Lemma validate_loop_seq (self : Blockchain) (n : nat) :
  forall (a : nat) (errorLog : list nat),
    (a + n = length (chain self))%nat ->
    validate_loop self (Z.of_nat (length (chain self)) - 1) (seq a n) errorLog
    = Normal (errorLog ++ List.filter (violationb (chain self)) (seq a n)).
Proof.
  induction n as [|n IH]; intros a errorLog Hlen.
  - simpl. rewrite app_nil_r. reflexivity.
  - cbn [seq validate_loop List.filter].
    destruct (lookup_lt_is_Some_2 (chain self) a) as [b Hb]; [lia|].
    rewrite (element_Some _ _ _ Hb). cbn [mbind Completion_bind].
    unfold violationb at 1. rewrite Hb.
    destruct (Z.eqb_spec (Z.of_nat a) (Z.of_nat (length (chain self)) - 1))
      as [Hlast|Hlast].
    + assert (n = 0%nat) as -> by lia.
      rewrite (lookup_ge_None_2 (chain self) (a + 1)) by lia.
      rewrite orb_false_r. simpl.
      destruct (negb (validate b)); [reflexivity|].
      rewrite app_nil_r. reflexivity.
    + destruct (lookup_lt_is_Some_2 (chain self) (a + 1)) as [next Hnext];
        [lia|].
      rewrite (element_Some _ _ _ Hnext). cbn [mbind Completion_bind].
      rewrite Hnext. rewrite IH by lia.
      destruct (negb (validate b) || negb (strict_equals _ _));
        [rewrite <- app_assoc|]; reflexivity.
Qed.

Lemma validateChain_log (self : Blockchain) :
  consistent self ->
  validateChain self =
    let errorLog :=
      List.filter (violationb (chain self)) (seq 0 (length (chain self))) in
    Resolved (if (length errorLog =? 0)%nat then ValidTrue
              else ErrorLog errorLog).
Proof.
  intros Hc. unfold validateChain.
  rewrite indices_seq by (assumption || lia).
  rewrite Hc, Nat.sub_0_r, validate_loop_seq by lia.
  cbn [mbind Completion_bind async_executor app].
  destruct (_ =? _)%nat; reflexivity.
Qed.

(** The loop of [getStarsByWalletAddress] over blocks that decode into
    claim records. *)
Lemma stars_loop_seq (self : Blockchain) (address : string) (n : nat) :
  forall (a : nat) (stars : list Star) records,
    n = (length (chain self) - a)%nat ->
    Forall2 decodes_to (drop a (chain self)) records ->
    stars_loop self address (seq a n) stars
    = Normal (stars ++ listClaimsByOwner records address).
Proof.
  induction n as [|n IH]; intros a stars records Hlen Hdec.
  - rewrite drop_ge in Hdec by lia. inversion Hdec. subst.
    simpl. rewrite app_nil_r. reflexivity.
  - destruct (lookup_lt_is_Some_2 (chain self) a) as [b Hb]; [lia|].
    rewrite (drop_S _ _ _ Hb) in Hdec.
    inversion Hdec as [|? r ? records' [Hparse [owner Haddr]] Hrest]; subst.
    cbn [seq stars_loop].
    rewrite (element_Some _ _ _ Hb). cbn [mbind Completion_bind].
    rewrite Hparse. cbn [property mbind Completion_bind].
    rewrite Haddr. cbn [loose_equals mbind Completion_bind].
    unfold listClaimsByOwner. cbn [List.filter].
    unfold owned_by at 1. rewrite Haddr.
    destruct (String.eqb owner address).
    + rewrite (IH (S a) _ records') by (assumption || lia).
      unfold listClaimsByOwner. cbn [map].
      rewrite <- app_assoc, Haddr. reflexivity.
    + rewrite (IH (S a) _ records') by (assumption || lia). reflexivity.
Qed.

(** An iteration that throws ends the loop, whatever came before. *)
Lemma stars_loop_throws (self : Blockchain) (address : string)
    (i : nat) (b : Block) :
  chain self !! i = Some b ->
  JSON_parse (hex2ascii (BlockClass.body b)) = None ->
  forall idxs stars, In i idxs ->
    exists e, stars_loop self address idxs stars = Throw e.
Proof.
  intros Hb Hparse. induction idxs as [|j idxs IH]; intros stars Hin.
  - destruct Hin.
  - cbn [stars_loop].
    destruct (element (chain self) j) as [bj|e] eqn:Ej;
      cbn [mbind Completion_bind]; [|eauto].
    destruct (JSON_parse (hex2ascii (BlockClass.body bj))) as [v|] eqn:Ep;
      cbn [mbind Completion_bind]; [|eauto].
    destruct Hin as [->|Hin].
    { unfold element in Ej. rewrite Hb in Ej. congruence. }
    destruct (property v "address") as [thisadd|e];
      cbn [mbind Completion_bind]; [|eauto].
    destruct (loose_equals thisadd address) as [[|]|e];
      cbn [mbind Completion_bind]; [| |eauto].
    + destruct (property v "star") as [star|e];
        cbn [mbind Completion_bind]; eauto.
    + eauto.
Qed.

Lemma getStars_never_rejects (self : Blockchain) (address : string)
    (reason : JSON) :
  getStarsByWalletAddress self address <> Rejected reason.
Proof.
  unfold getStarsByWalletAddress.
  destruct (stars_loop _ _ _ _); cbn; discriminate.
Qed.

(** With a height counter that agrees with the array, the loop of the owner
    query visits the indices from 1 to the last. *)
Lemma getStars_indices (self : Blockchain) (address : string) :
  consistent self ->
  getStarsByWalletAddress self address
  = async_executor (
      stars ← stars_loop self address
                (seq 1 (length (chain self) - 1)) [];
      Normal (Resolved stars)).
Proof.
  intros Hc. unfold getStarsByWalletAddress, indices. rewrite Hc.
  replace (Z.to_nat (Z.of_nat (length (chain self)) - 1 + 1 - Z.of_nat 1))
    with (length (chain self) - 1)%nat by lia.
  reflexivity.
Qed.

End Queries.

(** ** Issued challenges *)

Section Challenges.

Context `{Collaborators}.

Lemma split_field (a rest : string) :
  no_colon a ->
  JS.split ":" (a ++ String ":" rest) = a :: JS.split ":" rest.
Proof.
  unfold no_colon. induction a as [|c a IH]; intros Hno.
  - reflexivity.
  - cbn [list_ascii_of_string] in Hno. inversion Hno as [|? ? Hc Ha]; subst.
    change (String c a ++ String ":" rest)%string
      with (String c (a ++ String ":" rest)).
    cbn [JS.split].
    destruct (Ascii.eqb_spec c ":"); [contradiction|].
    rewrite IH by assumption. reflexivity.
Qed.

Lemma no_colon_digits (ds : list Z) :
  Forall is_digit ds ->
  no_colon (string_of_list_ascii (map JS.digit_char ds)).
Proof.
  intros Hds. unfold no_colon. rewrite list_ascii_of_string_of_list_ascii.
  induction Hds as [|d ds Hd _ IH]; [constructor|].
  cbn [map]. constructor; [|exact IH].
  apply is_digit_cases in Hd.
  repeat (destruct Hd as [Hd|Hd]); subst; discriminate.
Qed.

(** The challenge issued for an address without a colon has three fields,
    and its timestamp reads back as the second of its issue. *)
Lemma issued_message (now : Z) (address : string) :
  1000 <= now -> no_colon address ->
  exists message,
    requestMessageOwnershipVerification now address = Resolved message
    /\ JS.split ":" message = [address; epoch_seconds now; "starRegistry"]
    /\ sent_time message = Some (now / 1000).
Proof.
  intros Hnow Haddr. eexists. split; [reflexivity|].
  destruct (epoch_seconds_digits now Hnow) as (ds & Hne & Hds & E & Hval).
  assert (Hsplit :
    JS.split ":" (address ++ ":" ++ epoch_seconds now ++ ":starRegistry")%string
    = [address; epoch_seconds now; "starRegistry"]).
  { change (":" ++ epoch_seconds now ++ ":starRegistry")%string
      with (String ":" (epoch_seconds now ++ String ":" "starRegistry")).
    rewrite split_field by assumption.
    rewrite split_field by (rewrite E; apply no_colon_digits, Hds).
    reflexivity. }
  split; [exact Hsplit|].
  unfold sent_time. rewrite Hsplit. cbn [lookup list_lookup].
  unfold JS.parseInt. cbn [default from_option]. unfold id.
  rewrite E, parseInt_string_digits by assumption.
  rewrite Hval. reflexivity.
Qed.

(** A challenge issued by the object, signed, and submitted less than 300
    seconds after its issue is appended to the ledger. *)
Lemma issued_then_submitted (issued now now_add : Z) (self : Blockchain)
    (address message signature : string) (star : JSON) :
  1000 <= issued -> 1000 <= now -> no_colon address ->
  requestMessageOwnershipVerification issued address = Resolved message ->
  now / 1000 - issued / 1000 < 300 ->
  verify message address signature = Normal true ->
  exists b,
    submitStar now now_add self address message signature star
    = (mkBlockchain (chain self ++ [b]) (height self + 1), Resolved b, [])
    /\ BlockClass.height b = Z.of_nat (length (chain self)).
Proof.
  intros Hissued Hnow Haddr Hmsg Hel Hver.
  destruct (issued_message issued address Hissued Haddr)
    as (message' & Hmsg' & _ & Hsent).
  rewrite Hmsg in Hmsg'. injection Hmsg' as <-.
  rewrite submitStar_cases, (curr_time_seconds now Hnow), Hsent, Hver.
  apply less_than_5_seconds in Hel. rewrite Hel.
  destruct (_addBlock_stores now_add self
              (new_Block (star_data address signature message star)))
    as (b & -> & Hb & _).
  exists b. split; [reflexivity | exact Hb].
Qed.

End Challenges.

(** ** The ledger: linkage, heights and the height counter *)

Section LedgerClaims.

Context `{Collaborators}.

(** C1. Hash-chain linkage.  In every state of the blockchain object, that
    is after its construction and after any sequence of calls (so after any
    sequence of successful appends), the first block carries the empty
    sentinel as its previous hash, and every block at an index [i >= 1]
    carries as its previous hash the hash of the block at index [i - 1];
    every stored block has a hash, so no link is the empty sentinel. *)
Theorem C1_hash_chain_linkage (self : Blockchain) :
  reachable self ->
  (forall b0, chain self !! 0%nat = Some b0 ->
     BlockClass.previousBlockHash b0 = None)
  /\ (forall (i : nat) bi bprev, (1 <= i)%nat ->
        chain self !! i = Some bi -> chain self !! (i - 1)%nat = Some bprev ->
        BlockClass.previousBlockHash bi = BlockClass.hash bprev)
  /\ (forall (i : nat) b, chain self !! i = Some b ->
        exists h, BlockClass.hash b = Some h).
Proof.
  intros Hr. pose proof (reachable_hashed self Hr) as Hhashed.
  apply reachable_invariant in Hr as (_ & [Hgenesis Hlinked] & _).
  split; [exact Hgenesis|]. split; [exact Hlinked | exact Hhashed].
Qed.

(** C9. Heights.  The ledger is not empty in any state of the object, and
    the block at index [i] has height [i]: the heights are 0, 1, 2, ...
    without gaps.  Right after the construction the ledger is exactly the
    genesis block, at height 0.  An append gives the new block the current
    length of the ledger as its height. *)
Theorem C9_heights_contiguous (self : Blockchain) :
  reachable self ->
  chain self <> []
  /\ (forall (i : nat) b, chain self !! i = Some b ->
        BlockClass.height b = Z.of_nat i)
  /\ (forall now, exists genesis,
        chain (constructor now) = [genesis]
        /\ BlockClass.height genesis = 0
        /\ BlockClass.body genesis = encode genesis_data)
  /\ (forall now block, exists b,
        _addBlock now self block
        = (mkBlockchain (chain self ++ [b]) (height self + 1), Resolved b)
        /\ BlockClass.height b = Z.of_nat (length (chain self))).
Proof.
  intros Hr. split; [apply reachable_nonempty, Hr|].
  split; [apply reachable_invariant in Hr as (_ & _ & Hh & _); exact Hh|].
  split.
  - intros now. rewrite constructor_genesis.
    destruct (_addBlock_stores now (mkBlockchain [] (-1))
                (new_Block genesis_data)) as (b & -> & Hb & Hbody & _).
    exists b. repeat split; assumption.
  - intros now block.
    destruct (_addBlock_stores now self block) as (b & E & Hb & _).
    exists b. split; assumption.
Qed.

(** C10. The height counter.  In every state of the object the stored
    [height] is [chain.length - 1], [getChainHeight] resolves with exactly
    that value, and it is the height of the last block. *)
Theorem C10_height_counter (self : Blockchain) :
  reachable self ->
  height self = Z.of_nat (length (chain self)) - 1
  /\ getChainHeight self = Resolved (Z.of_nat (length (chain self)) - 1)
  /\ exists b, last (chain self) = Some b
               /\ BlockClass.height b = height self.
Proof.
  intros Hr. pose proof (reachable_nonempty self Hr) as Hne.
  apply reachable_invariant in Hr as (Hc & _ & Hh & _).
  split; [exact Hc|]. split; [unfold getChainHeight; rewrite Hc; reflexivity|].
  destruct (last (chain self)) as [b|] eqn:Hlast.
  - exists b. split; [reflexivity|].
    rewrite last_lookup in Hlast. rewrite (Hh _ _ Hlast), Hc.
    destruct (chain self); [contradiction | simpl; lia].
  - apply last_None in Hlast. contradiction.
Qed.

(** X10.  A ledger that only went through the object's own methods passes
    the validation: in every state of the object [validateChain] resolves
    with [true]. *)
Theorem X10_reachable_ledger_validates (self : Blockchain) :
  reachable self -> validateChain self = Resolved ValidTrue.
Proof.
  intros Hr. apply reachable_invariant in Hr as (Hc & _ & _ & Hval & Hlink).
  rewrite (validateChain_log self Hc). cbv zeta.
  replace (List.filter _ _) with (@nil nat); [reflexivity|].
  symmetry. apply filter_none. intros i _.
  destruct (violationb (chain self) i) eqn:E; [|reflexivity].
  apply violationb_violation in E as (b & Hb & [Hv|(next & Hn & Hne)]).
  - rewrite (Hval _ _ Hb) in Hv. discriminate.
  - destruct Hne. symmetry. eapply Hlink; eassumption.
Qed.

End LedgerClaims.

(** ** The ownership protocol *)

Section ProtocolClaims.

Context `{Collaborators}.

Lemma sent_time_missing (message : string) :
  (length (JS.split ":" message) < 2)%nat -> sent_time message = None.
Proof.
  intros Hlen. unfold sent_time.
  rewrite (lookup_ge_None_2 (JS.split ":" message) 1) by lia.
  reflexivity.
Qed.

(** C2. The time window.  When the timestamp embedded in the message and
    the current time both read as numbers of seconds: if the embedded
    timestamp is 300 seconds old or older, [submitStar] rejects on the
    time-lapsed branch and the state, so the length of the ledger, is
    unchanged; if it is less than 300 seconds old, the time check lets the
    submission through, and the outcome is that of the signature check:
    appended when it verifies, rejected on the verification branch when it
    does not, and a promise that is never settled when the check throws. *)
Theorem C2_time_window now now_add self address message signature star
    (curr sent : Z) :
  curr_time now = Some curr ->
  sent_time message = Some sent ->
  (300 <= curr - sent ->
     submitStar now now_add self address message signature star
     = (self, Rejected null, [err_time_lapsed]))
  /\ (curr - sent < 300 ->
        submitStar now now_add self address message signature star
        = match verify message address signature with
          | Normal true =>
              ((_addBlock now_add self
                  (new_Block (star_data address signature message star))).1,
               (_addBlock now_add self
                  (new_Block (star_data address signature message star))).2,
               [])
          | Normal false => (self, Rejected null, [err_verification])
          | Throw _ => (self, Pending, [])
          end).
Proof.
  intros Hcurr Hsent. rewrite submitStar_cases, Hcurr, Hsent.
  pose proof (less_than_5_seconds curr sent) as Hiff.
  destruct (less_than_5 _); split; intros Hel; try reflexivity.
  - apply proj1 in Hiff. specialize (Hiff eq_refl). lia.
  - apply proj2 in Hiff. specialize (Hiff Hel). discriminate.
Qed.

(** C3.  The signature check.  For a message whose timestamp is less than
    300 seconds old: when [bitcoinMessage.verify] returns false the
    submission is rejected on the verification branch; when the call
    throws, as the library does on a signature or an address that is
    malformed, no rejection takes place: the promise is never settled and
    no error message is written.  Whenever [submitStar] rejects or is left
    pending, the state is the one it started from, and in every case the
    ledger it leaves extends the one it found. *)
Theorem C3_signature_check now now_add self address message signature star :
  (forall curr sent : Z,
     curr_time now = Some curr ->
     sent_time message = Some sent ->
     curr - sent < 300 ->
     (verify message address signature = Normal false ->
        submitStar now now_add self address message signature star
        = (self, Rejected null, [err_verification]))
     /\ (forall e, verify message address signature = Throw e ->
           submitStar now now_add self address message signature star
           = (self, Pending, [])))
  /\ (forall reason,
        (submitStar now now_add self address message signature star).1.2
        = Rejected reason ->
        (submitStar now now_add self address message signature star).1.1
        = self)
  /\ ((submitStar now now_add self address message signature star).1.2
      = Pending ->
      (submitStar now now_add self address message signature star).1.1
      = self)
  /\ chain self `prefix_of`
       chain (submitStar now now_add self address message signature star).1.1.
Proof.
  rewrite submitStar_cases. split; [|split; [|split]].
  - intros curr sent Hcurr Hsent Hel. rewrite Hcurr, Hsent.
    apply (less_than_5_seconds curr sent) in Hel. rewrite Hel.
    split; [intros ->|intros e ->]; reflexivity.
  - intros reason.
    destruct (less_than_5 _); [|reflexivity].
    destruct (verify _ _ _) as [[|]|e]; [|reflexivity|reflexivity].
    destruct (_addBlock_stores now_add self
                (new_Block (star_data address signature message star)))
      as (b & -> & _).
    discriminate.
  - destruct (less_than_5 _); [|reflexivity].
    destruct (verify _ _ _) as [[|]|e]; [|reflexivity|reflexivity].
    destruct (_addBlock_stores now_add self
                (new_Block (star_data address signature message star)))
      as (b & -> & _).
    discriminate.
  - destruct (less_than_5 _); [|reflexivity].
    destruct (verify _ _ _) as [[|]|e]; [|reflexivity|reflexivity].
    destruct (_addBlock_stores now_add self
                (new_Block (star_data address signature message star)))
      as (b & -> & _).
    simpl. apply prefix_app_r. reflexivity.
Qed.

(** C4.  No shape check: [submitStar] has no test on the number of fields of
    the message.  A message with no second colon-separated field, or whose
    second field does not begin with an integer, is rejected on the
    time-lapsed branch, whatever the signature, and the state is unchanged.
    A message whose second field is a timestamp less than 300 seconds old
    and whose signature verifies is appended, however many fields it
    has. *)
Theorem C4_no_shape_check now now_add self address message signature star :
  ((length (JS.split ":" message) < 2)%nat \/ sent_time message = None ->
     submitStar now now_add self address message signature star
     = (self, Rejected null, [err_time_lapsed]))
  /\ (forall curr sent : Z,
        curr_time now = Some curr ->
        sent_time message = Some sent ->
        curr - sent < 300 ->
        verify message address signature = Normal true ->
        exists b,
          submitStar now now_add self address message signature star
          = (mkBlockchain (chain self ++ [b]) (height self + 1),
             Resolved b, [])).
Proof.
  rewrite submitStar_cases. split.
  - intros Hshape.
    assert (sent_time message = None) as ->
      by (destruct Hshape; [apply sent_time_missing|]; assumption).
    rewrite less_than_5_NaN_sent. reflexivity.
  - intros curr sent Hcurr Hsent Hel Hver. rewrite Hcurr, Hsent, Hver.
    apply (less_than_5_seconds curr sent) in Hel. rewrite Hel.
    destruct (_addBlock_stores now_add self
                (new_Block (star_data address signature message star)))
      as (b & -> & _).
    exists b. reflexivity.
Qed.

End ProtocolClaims.

(** ** The chain validator and the owner query *)

Section QueryClaims.

Context `{Collaborators}.

Lemma StronglySorted_filter_lt (f : nat -> bool) (l : list nat) :
  StronglySorted lt l -> StronglySorted lt (List.filter f l).
Proof.
  induction 1 as [|x l Hs IH Hx]; [constructor|].
  simpl. destruct (f x); [|exact IH].
  constructor; [exact IH|].
  apply List.Forall_forall. intros y Hy.
  apply filter_In in Hy as [Hy _].
  rewrite List.Forall_forall in Hx. apply Hx, Hy.
Qed.

Lemma StronglySorted_seq (n a : nat) : StronglySorted lt (seq a n).
Proof.
  revert a. induction n as [|n IH]; intros a; [constructor|].
  simpl. constructor; [apply IH|].
  apply List.Forall_forall. intros y Hy. apply in_seq in Hy. lia.
Qed.

(** C5.  On an untampered chain of any length (every block
    passes its self check, every block carries the hash of the one before
    it) [validateChain] logs no error and resolves with [true], not with
    the empty list. *)
Theorem C5_validateChain_untampered (self : Blockchain) :
  consistent self ->
  untampered (chain self) ->
  validateChain self = Resolved ValidTrue.
Proof.
  intros Hc [Hval Hlink].
  rewrite (validateChain_log self Hc). cbv zeta.
  rewrite filter_none; [reflexivity|].
  intros i _. destruct (violationb (chain self) i) eqn:E; [|reflexivity].
  apply violationb_violation in E as (b & Hb & [Hv|(next & Hn & Hne)]).
  - rewrite (Hval _ _ Hb) in Hv. discriminate.
  - destruct Hne. symmetry. eapply Hlink; eassumption.
Qed.

(** C6. [validateChain] goes through the whole chain and logs every
    violation: an index is in the error log exactly when its block fails
    its self check (the last block included), or when its hash is not the
    previous hash stored in the next block.  The log is in ascending order
    of index, each index at most once, and it is what the promise resolves
    with whenever it is not empty. *)
Theorem C6_validateChain_complete (self : Blockchain) :
  consistent self ->
  exists errorLog : list nat,
    validateChain self
    = Resolved (match errorLog with
                | [] => ValidTrue
                | _ :: _ => ErrorLog errorLog
                end)
    /\ (forall i : nat, In i errorLog <-> violation (chain self) i)
    /\ (forall b, last (chain self) = Some b ->
          (In (length (chain self) - 1)%nat errorLog <-> validate b = false))
    /\ StronglySorted lt errorLog.
Proof.
  intros Hc.
  exists (List.filter (violationb (chain self)) (seq 0 (length (chain self)))).
  assert (Hin : forall i : nat,
            In i (List.filter (violationb (chain self))
                    (seq 0 (length (chain self))))
            <-> violation (chain self) i).
  { intros i. rewrite filter_In, violationb_violation, in_seq.
    split; [tauto|]. intros Hv. split; [|exact Hv].
    destruct Hv as (b & Hb & _). apply lookup_lt_Some in Hb. lia. }
  split; [|split; [exact Hin|split]].
  - rewrite (validateChain_log self Hc). cbv zeta.
    destruct (List.filter _ _); reflexivity.
  - intros b Hlast. rewrite Hin. rewrite last_lookup in Hlast.
    replace (Nat.pred (length (chain self)))
      with (length (chain self) - 1)%nat in Hlast by lia.
    pose proof (lookup_lt_Some _ _ _ Hlast) as Hlt.
    unfold violation. rewrite Hlast. split.
    + intros (b' & [= <-] & [Hv|(next & Hn & _)]); [exact Hv|].
      apply lookup_lt_Some in Hn. lia.
    + intros Hv. exists b. auto.
  - apply StronglySorted_filter_lt, StronglySorted_seq.
Qed.


(** With a body codec that decodes what it encoded, the blocks that the
    object appended after genesis all decode into claim records, and the
    owner query resolves on every ledger the object can hold. *)
Lemma reachable_getStars (self : Blockchain) (address : string) :
  (forall data, JSON_parse (hex2ascii (encode data)) = Some data) ->
  reachable self ->
  exists records,
    Forall2 decodes_to (drop 1 (chain self)) records
    /\ getStarsByWalletAddress self address
       = Resolved (listClaimsByOwner records address).
Proof.
  intros Hcodec Hr.
  assert (Hall : Forall (fun b => exists r, decodes_to b r)
                   (drop 1 (chain self))).
  { apply Forall_lookup. intros i b Hb. rewrite lookup_drop in Hb.
    destruct (reachable_bodies self Hr (1 + i)%nat b) as (a & sg & m & st & E);
      [lia | exact Hb |].
    eexists. unfold decodes_to. rewrite E, Hcodec.
    split; [reflexivity|]. exists a. reflexivity. }
  apply Forall_exists_Forall2_l in Hall as [records Hrec].
  exists records. split; [exact Hrec|].
  apply reachable_invariant in Hr as (Hc & _).
  rewrite (getStars_indices self address Hc).
  rewrite (stars_loop_seq self address _ 1 [] records eq_refl Hrec).
  reflexivity.
Qed.

(** C8.  When a block after genesis, at an index up to the
    stored height, has a body that fails to decode, the owner query gives
    the caller neither a result (it does not skip the block, it returns no
    partial list) nor an error: its promise is never settled. *)
Theorem C8_decode_failure_pending (self : Blockchain) (address : string)
    (i : nat) (b : Block) :
  (1 <= i)%nat ->
  Z.of_nat i <= height self ->
  chain self !! i = Some b ->
  JSON_parse (hex2ascii (BlockClass.body b)) = None ->
  getStarsByWalletAddress self address = Pending.
Proof.
  intros Hi Hh Hb Hparse. unfold getStarsByWalletAddress.
  destruct (stars_loop_throws self address i b Hb Hparse
              (indices 1 (height self)) []) as [e ->]; [|reflexivity].
  unfold indices. apply in_seq. lia.
Qed.

End QueryClaims.

(** ** More of the ownership protocol *)

Section ProtocolExtras.

Context `{Collaborators}.

(** X1.  The challenge that [requestMessageOwnershipVerification]
    resolves with, for an address without a colon and a clock past the
    first second of the epoch, splits into exactly the three fields
    address, seconds and [starRegistry].  [submitStar] reads its timestamp
    back as the second of its issue, which is what it computes as the
    current time at that same instant. *)
Theorem X1_issued_challenge (now : Z) (address : string) :
  1000 <= now -> no_colon address ->
  exists message,
    requestMessageOwnershipVerification now address = Resolved message
    /\ JS.split ":" message = [address; epoch_seconds now; "starRegistry"]
    /\ sent_time message = Some (now / 1000)
    /\ sent_time message = curr_time now.
Proof.
  intros Hnow Haddr.
  destruct (issued_message now address Hnow Haddr)
    as (message & Hmsg & Hsplit & Hsent).
  exists message. repeat split; try assumption.
  rewrite Hsent. symmetry. apply curr_time_seconds, Hnow.
Qed.

Lemma seconds_elapsed_bounds (issued now : Z) :
  (now - issued <= 299000 -> now / 1000 - issued / 1000 < 300)
  /\ (300000 <= now - issued -> 300 <= now / 1000 - issued / 1000).
Proof.
  pose proof (Z.div_mod now 1000 ltac:(lia)).
  pose proof (Z.div_mod issued 1000 ltac:(lia)).
  pose proof (Z.mod_pos_bound now 1000 ltac:(lia)).
  pose proof (Z.mod_pos_bound issued 1000 ltac:(lia)).
  split; lia.
Qed.

(** X2.  The five-minute window in milliseconds of the clock.  A challenge
    issued by the object and submitted up to 299 000 ms later passes the
    time check: the outcome is that of the signature check (appended,
    rejected on the verification branch, or never settled when the check
    throws).  Submitted
    300 000 ms later or more it is rejected as time lapsed and the state is
    unchanged.  (Both instants are cut to whole seconds, so in between the
    outcome depends on where they fall within their seconds.) *)
Theorem X2_window_in_milliseconds (issued now now_add : Z)
    (self : Blockchain) (address message signature : string) (star : JSON) :
  1000 <= issued -> 1000 <= now -> no_colon address ->
  requestMessageOwnershipVerification issued address = Resolved message ->
  (now - issued <= 299000 ->
     submitStar now now_add self address message signature star
     = match verify message address signature with
       | Normal true =>
           ((_addBlock now_add self
               (new_Block (star_data address signature message star))).1,
            (_addBlock now_add self
               (new_Block (star_data address signature message star))).2, [])
       | Normal false => (self, Rejected null, [err_verification])
       | Throw _ => (self, Pending, [])
       end)
  /\ (300000 <= now - issued ->
        submitStar now now_add self address message signature star
        = (self, Rejected null, [err_time_lapsed])).
Proof.
  intros Hissued Hnow Haddr Hmsg.
  destruct (issued_message issued address Hissued Haddr)
    as (message' & Hmsg' & _ & Hsent).
  rewrite Hmsg in Hmsg'. injection Hmsg' as <-.
  rewrite submitStar_cases, (curr_time_seconds now Hnow), Hsent.
  pose proof (less_than_5_seconds (now / 1000) (issued / 1000)) as Hiff.
  destruct (seconds_elapsed_bounds issued now) as [Hin Hout].
  split; intros Hms.
  - apply Hin, Hiff in Hms. rewrite Hms. reflexivity.
  - apply Hout in Hms.
    destruct (less_than_5 _); [|reflexivity].
    apply proj1 in Hiff. specialize (Hiff eq_refl). lia.
Qed.

(** X3.  From the first second of the epoch on,
    [parseInt(new Date().getTime().toString().slice(0, -3))] is the clock
    in whole seconds: it is the current time of [submitStar], and the
    [time] that [_addBlock] stores in a block reads back as it. *)
Theorem X3_clock_in_seconds (now : Z) (self : Blockchain) (block : Block) :
  1000 <= now ->
  curr_time now = Some (now / 1000)
  /\ exists b, (_addBlock now self block).2 = Resolved b
       /\ JS.parseInt (Some (BlockClass.time b)) = Some (now / 1000).
Proof.
  intros Hnow. pose proof (curr_time_seconds now Hnow) as Hcurr.
  split; [exact Hcurr|].
  destruct (_addBlock_stores now self block) as (b & -> & _ & _ & Htime & _).
  exists b. split; [reflexivity|]. rewrite Htime. exact Hcurr.
Qed.

(** X4.  An accepted submission.  With a timestamp less than 300 seconds
    old and a signature that verifies, [submitStar] appends exactly one
    block and resolves with it; nothing is written to the console.  The
    block has the old length of the ledger as its height, the encoded
    [{address, signature, message, star}] as its body, the clock of
    [_addBlock] in seconds as its time, the hash of the block that was last
    as its previous hash, and it passes its own self check. *)
Theorem X4_accepted_submission now now_add self address message signature star
    (curr sent : Z) :
  curr_time now = Some curr ->
  sent_time message = Some sent ->
  curr - sent < 300 ->
  verify message address signature = Normal true ->
  exists b,
    submitStar now now_add self address message signature star
    = (mkBlockchain (chain self ++ [b]) (height self + 1), Resolved b, [])
    /\ BlockClass.height b = Z.of_nat (length (chain self))
    /\ BlockClass.body b
       = encode (star_data address signature message star)
    /\ BlockClass.time b = epoch_seconds now_add
    /\ BlockClass.previousBlockHash b
       = from_option BlockClass.hash None (last (chain self))
    /\ validate b = true.
Proof.
  intros Hcurr Hsent Hel Hver.
  rewrite submitStar_cases, Hcurr, Hsent, Hver.
  apply (less_than_5_seconds curr sent) in Hel. rewrite Hel.
  pose proof (validate_addBlock now_add self
                (new_Block (star_data address signature message star)))
    as Hvalid.
  destruct (_addBlock_stores now_add self
              (new_Block (star_data address signature message star)))
    as (b & E & Hh & Hbody & Htime & Hprev & _).
  rewrite E in Hvalid |- *. exists b.
  repeat split; try assumption; try reflexivity.
  apply Hvalid; reflexivity.
Qed.

(** X13.  Whether a submission is accepted depends on the clock, the
    message, the address and the signature only: not on the ledger, nor on
    the star.  A challenge and its signature can therefore be submitted
    again, with any star, and are accepted again as long as the window is
    open (no record of used challenges is kept). *)
Theorem X13_acceptance_ignores_ledger now address message signature
    (now_add now_add' : Z) (self self' : Blockchain) (star star' : JSON) :
  (exists b, (submitStar now now_add self address message signature star).1.2
             = Resolved b)
  <-> (exists b', (submitStar now now_add' self' address message signature
                     star').1.2 = Resolved b').
Proof.
  rewrite !submitStar_cases.
  destruct (less_than_5 _); [|split; intros [? [=]]].
  destruct (verify _ _ _) as [[|]|e];
    [|split; intros [? [=]]|split; intros [? [=]]].
  destruct (_addBlock_stores now_add self
              (new_Block (star_data address signature message star)))
    as (b & -> & _).
  destruct (_addBlock_stores now_add' self'
              (new_Block (star_data address signature message star')))
    as (b' & -> & _).
  split; intros _; eexists; reflexivity.
Qed.

End ProtocolExtras.

(** ** More of the ledger: initialisation, growth and lookups *)

Section LedgerExtras.

Context `{Collaborators}.

(** X5.  [initializeChain] builds the genesis block once: called on any
    state of the object, it leaves the state as it is. *)
Theorem X5_initializeChain_once (now : Z) (self : Blockchain) :
  reachable self ->
  initializeChain now self = self
  /\ run (OpInitializeChain now) self = self.
Proof.
  intros Hr. pose proof (reachable_height self Hr) as Hh.
  assert (E : initializeChain now self = self).
  { unfold initializeChain.
    destruct (Z.eqb_spec (height self) (-1)); [lia | reflexivity]. }
  split; exact E.
Qed.

Lemma run_prefix (op : Op) (self : Blockchain) :
  chain self `prefix_of` chain (run op self)
  /\ (length (chain (run op self)) <= S (length (chain self)))%nat.
Proof.
  destruct (run_cases op self) as [->|(now & data & ->)].
  - split; [reflexivity | lia].
  - destruct (_addBlock_stores now self (new_Block data)) as (b & -> & _).
    simpl. split; [apply prefix_app_r; reflexivity|].
    rewrite length_app. simpl. lia.
Qed.

(** X6.  The ledger is append-only.  After any sequence of calls, the
    ledger from before is a prefix of the ledger: every block is still at
    its index, unchanged; and the ledger has grown by at most one block a
    call. *)
Theorem X6_append_only (ops : list Op) (self : Blockchain) :
  chain self `prefix_of` chain (run_all ops self)
  /\ (length (chain (run_all ops self))
      <= length (chain self) + length ops)%nat
  /\ (forall (i : nat) b, chain self !! i = Some b ->
        chain (run_all ops self) !! i = Some b).
Proof.
  assert (Hpre : chain self `prefix_of` chain (run_all ops self)
                 /\ (length (chain (run_all ops self))
                     <= length (chain self) + length ops)%nat).
  { revert self. induction ops as [|op ops IH]; intros self.
    - simpl. split; [reflexivity | lia].
    - cbn [run_all foldl length].
      destruct (run_prefix op self) as [Hp Hl].
      destruct (IH (run op self)) as [Hp' Hl'].
      split; [etrans; eassumption | unfold run_all in Hl'; lia]. }
  destruct Hpre as [Hp Hl]. split; [exact Hp|]. split; [exact Hl|].
  intros i b Hb. eapply prefix_lookup_Some; eassumption.
Qed.

Lemma head_filter_height (l : list Block) (h : Z) :
  forall k : nat,
    (forall (j : nat) b, l !! j = Some b ->
       BlockClass.height b = Z.of_nat (k + j)) ->
    head (filter (fun p => BlockClass.height p = h) l)
    = if decide (Z.of_nat k <= h < Z.of_nat (k + length l))
      then l !! (Z.to_nat h - k)%nat else None.
Proof.
  induction l as [|b l IH]; intros k Hh.
  - simpl. case_decide; [lia | reflexivity].
  - pose proof (Hh 0%nat b eq_refl) as Hb. rewrite Nat.add_0_r in Hb.
    assert (Hl : forall (j : nat) b', l !! j = Some b' ->
                   BlockClass.height b' = Z.of_nat (S k + j)).
    { intros j b' Hj. rewrite (Hh (S j) b' Hj). f_equal. lia. }
    specialize (IH (S k) Hl). cbn [length].
    destruct (decide (BlockClass.height b = h)) as [E|E].
    + rewrite filter_cons_True by exact E. cbn [head].
      clear IH. case_decide; [|lia].
      replace (Z.to_nat h - k)%nat with 0%nat by lia. reflexivity.
    + rewrite filter_cons_False by exact E. rewrite IH. clear IH.
      assert (h <> Z.of_nat k) by congruence.
      repeat case_decide; try lia; [|reflexivity].
      replace (Z.to_nat h - k)%nat with (S (Z.to_nat h - S k)) by lia.
      reflexivity.
Qed.

(** X7.  [getBlockByHeight], in any state of the object: for a height
    between 0 and the stored height it resolves with the block at that
    index, whose height it is; for any other height it resolves with
    [null]. *)
Theorem X7_getBlockByHeight (self : Blockchain) (h : Z) :
  reachable self ->
  (0 <= h <= height self ->
     exists b, getBlockByHeight self h = Resolved (Some b)
       /\ chain self !! Z.to_nat h = Some b
       /\ BlockClass.height b = h)
  /\ (h < 0 \/ height self < h -> getBlockByHeight self h = Resolved None).
Proof.
  intros Hr. apply reachable_invariant in Hr as (Hc & _ & Hh & _).
  red in Hc. unfold getBlockByHeight.
  rewrite (head_filter_height (chain self) h 0) by exact Hh.
  rewrite Nat.sub_0_r. split.
  - intros Hin. case_decide; [|simpl in *; lia].
    destruct (lookup_lt_is_Some_2 (chain self) (Z.to_nat h)) as [b Hb]; [lia|].
    exists b. rewrite Hb. repeat split.
    rewrite (Hh _ _ Hb). lia.
  - intros Hout. case_decide; [simpl in *; lia | reflexivity].
Qed.

Lemma head_filter_hash (h : string) (l : list Block) :
  match head (filter (fun b => strict_equals (BlockClass.hash b) (Some h) = true)
                l) with
  | Some b =>
      exists i : nat, l !! i = Some b /\ BlockClass.hash b = Some h
        /\ forall (j : nat) bj, (j < i)%nat -> l !! j = Some bj ->
             BlockClass.hash bj <> Some h
  | None => forall (i : nat) b, l !! i = Some b -> BlockClass.hash b <> Some h
  end.
Proof.
  induction l as [|b l IH].
  - simpl. intros i b Hb. rewrite lookup_nil in Hb. discriminate.
  - destruct (decide (strict_equals (BlockClass.hash b) (Some h) = true))
      as [E|E].
    + rewrite filter_cons_True by exact E. cbn [head].
      exists 0%nat. split; [reflexivity|].
      split; [apply strict_equals_eq, E|]. intros j bj Hj. lia.
    + rewrite filter_cons_False by exact E.
      assert (Hb : BlockClass.hash b <> Some h)
        by (intros Eq; apply E, strict_equals_eq, Eq).
      destruct (head _) as [b'|].
      * destruct IH as (i & Hi & Hhash & Hfirst).
        exists (S i). split; [exact Hi|]. split; [exact Hhash|].
        intros [|j] bj Hj Hbj; [injection Hbj as <-; exact Hb|].
        apply (Hfirst j); [lia | exact Hbj].
      * intros [|i] b' Hb'; [injection Hb' as <-; exact Hb|].
        apply (IH i), Hb'.
Qed.

(** X8.  [getBlockByHash], in any state: it resolves, either with the
    first block of the chain whose hash is the given one, or with [null]
    when no block of the chain has that hash. *)
Theorem X8_getBlockByHash (self : Blockchain) (h : string) :
  exists found : option Block,
    getBlockByHash self h = Resolved found
    /\ match found with
       | Some b =>
           exists i : nat, chain self !! i = Some b
             /\ BlockClass.hash b = Some h
             /\ forall (j : nat) bj, (j < i)%nat -> chain self !! j = Some bj ->
                  BlockClass.hash bj <> Some h
       | None =>
           forall (i : nat) b, chain self !! i = Some b ->
             BlockClass.hash b <> Some h
       end.
Proof.
  unfold getBlockByHash. eexists. split; [reflexivity|].
  apply head_filter_hash.
Qed.

(** X9.  The block that [submitStar] resolved with can be read back: in
    the state after the submission [getBlockByHeight] resolves with it for
    its height, which is also what [getChainHeight] resolves with, and
    [getBlockByHash] resolves with it for its hash when no earlier block
    has the same hash. *)
Theorem X9_submitted_block_found now now_add self address message signature
    star (b : Block) (h : string) :
  reachable self ->
  (submitStar now now_add self address message signature star).1.2
  = Resolved b ->
  BlockClass.hash b = Some h ->
  let self' :=
    (submitStar now now_add self address message signature star).1.1 in
  getBlockByHeight self' (BlockClass.height b) = Resolved (Some b)
  /\ getChainHeight self' = Resolved (BlockClass.height b)
  /\ ((forall (i : nat) b0, chain self !! i = Some b0 ->
         BlockClass.hash b0 <> Some h) ->
      getBlockByHash self' h = Resolved (Some b)).
Proof.
  intros Hr Hres Hhash self'.
  assert (Hr' : reachable self')
    by (apply (reachable_run
                 (OpSubmitStar now now_add address message signature star)),
        Hr).
  assert (Hchain : chain self' = chain self ++ [b]
                   /\ height self' = height self + 1).
  { subst self'. revert Hres. rewrite submitStar_cases.
    destruct (less_than_5 _); [|discriminate].
    destruct (verify _ _ _) as [[|]|e]; [|discriminate|discriminate].
    destruct (_addBlock_stores now_add self
                (new_Block (star_data address signature message star)))
      as (b' & -> & _).
    simpl. intros [= ->]. split; reflexivity. }
  destruct Hchain as [Hchain Hheight].
  pose proof (reachable_invariant self' Hr') as (Hc' & _ & Hh' & _).
  assert (Hlast : chain self' !! length (chain self) = Some b).
  { rewrite Hchain. rewrite lookup_app_r by lia.
    rewrite Nat.sub_diag. reflexivity. }
  pose proof (Hh' _ _ Hlast) as Hb.
  assert (Hbh : BlockClass.height b = height self').
  { rewrite Hb. red in Hc'. rewrite Hc', Hchain, length_app. simpl. lia. }
  split; [|split].
  - unfold getBlockByHeight.
    rewrite (head_filter_height (chain self') _ 0) by exact Hh'.
    assert (Hlen : length (chain self') = S (length (chain self)))
      by (rewrite Hchain, length_app; simpl; lia).
    case_decide; [|lia].
    rewrite Hb, Nat2Z.id, Nat.sub_0_r. rewrite Hlast. reflexivity.
  - unfold getChainHeight. rewrite Hbh. reflexivity.
  - intros Hfresh. unfold getBlockByHash.
    pose proof (head_filter_hash h (chain self')) as Hfound.
    destruct (head _) as [b'|].
    + destruct Hfound as (i & Hi & Hih & _).
      rewrite Hchain in Hi. apply lookup_app_Some in Hi as [Hi|[_ Hi]].
      * destruct (Hfresh _ _ Hi Hih).
      * apply list_lookup_singleton_Some in Hi as [_ ->]. reflexivity.
    + destruct (Hfound _ _ Hlast Hhash).
Qed.

(** X15.  Only an accepted submission changes the state.  In any state of
    the object, a call of any method leaves the chain and the height as
    they are, unless it is a [submitStar] that resolves: then the block it
    resolves with is appended and the height goes up by one. *)
Theorem X15_only_submissions_append (op : Op) (self : Blockchain) :
  reachable self ->
  run op self = self
  \/ exists now now_add address message signature star b,
       op = OpSubmitStar now now_add address message signature star
       /\ (submitStar now now_add self address message signature star).1.2
          = Resolved b
       /\ run op self
          = mkBlockchain (chain self ++ [b]) (height self + 1).
Proof.
  intros Hr. pose proof (reachable_height self Hr) as Hh.
  destruct op as [now| |now address|now now_add address message signature star
                 |h|h|address|]; try (left; reflexivity).
  - left. simpl. unfold initializeChain.
    destruct (Z.eqb_spec (height self) (-1)); [lia | reflexivity].
  - simpl. rewrite submitStar_cases.
    destruct (less_than_5 _) eqn:Ewin; [|left; reflexivity].
    destruct (verify _ _ _) as [[|]|e] eqn:Ever;
      [|left; reflexivity|left; reflexivity].
    right. exists now, now_add, address, message, signature, star.
    destruct (_addBlock_stores now_add self
                (new_Block (star_data address signature message star)))
      as (b & E & _).
    exists b. rewrite submitStar_cases, Ewin, Ever, E. repeat split.
Qed.

End LedgerExtras.

(** ** More of the validator and of the owner query *)

Section QueryExtras.

Context `{Collaborators}.

Lemma filter_seq_single (f : nat -> bool) (i : nat) :
  forall (n a : nat),
    (a <= i < a + n)%nat ->
    (forall j : nat, (a <= j < a + n)%nat -> f j = true <-> j = i) ->
    List.filter f (seq a n) = [i].
Proof.
  induction n as [|n IH]; intros a Hi Hf; [lia|].
  cbn [seq List.filter].
  destruct (f a) eqn:Ea.
  - apply Hf in Ea; [|lia]. subst a. f_equal.
    apply filter_none. intros j Hj. apply in_seq in Hj.
    destruct (f j) eqn:Ej; [|reflexivity].
    apply Hf in Ej; lia.
  - assert (a <> i) by (intros ->; rewrite (proj2 (Hf i ltac:(lia)) eq_refl) in Ea;
                        discriminate).
    apply IH; [lia|]. intros j Hj. apply Hf. lia.
Qed.

(** X11.  A tampered block is reported.  Take any state of the object and
    overwrite one block with a block that keeps the stored hash and the
    previous hash but fails its self check (its body, time or height was
    changed): [validateChain] resolves with the error log holding exactly
    the index of that block. *)
Theorem X11_tampered_block_reported (self : Blockchain) (i : nat)
    (b b' : Block) :
  reachable self ->
  chain self !! i = Some b ->
  BlockClass.hash b' = BlockClass.hash b ->
  BlockClass.previousBlockHash b' = BlockClass.previousBlockHash b ->
  validate b' = false ->
  validateChain (mkBlockchain (<[i:=b']> (chain self)) (height self))
  = Resolved (ErrorLog [i]).
Proof.
  intros Hr Hb Hhash Hprev Hbad.
  apply reachable_invariant in Hr as (Hc & _ & _ & Hval & Hlink).
  pose proof (lookup_lt_Some _ _ _ Hb) as Hi.
  set (self' := mkBlockchain (<[i:=b']> (chain self)) (height self)).
  assert (Hc' : consistent self')
    by (unfold consistent, self'; simpl; rewrite length_insert; exact Hc).
  rewrite (validateChain_log self' Hc'). cbv zeta.
  unfold self'. cbn [chain]. rewrite length_insert.
  rewrite (filter_seq_single _ i); [reflexivity | lia |].
  intros j Hj. unfold violationb.
  destruct (decide (j = i)) as [->|Hne].
  - rewrite list_lookup_insert_eq by exact Hi. rewrite Hbad. simpl. tauto.
  - rewrite list_lookup_insert_ne by congruence.
    destruct (lookup_lt_is_Some_2 (chain self) j) as [bj Hbj]; [lia|].
    rewrite Hbj, (Hval _ _ Hbj). cbn [negb orb].
    split; [|intros ->; contradiction]. intros Hv. exfalso.
    destruct (decide (j + 1 = i)%nat) as [E|E].
    + rewrite E, list_lookup_insert_eq in Hv by exact Hi.
      rewrite Hprev in Hv. rewrite <- E in Hb.
      rewrite (Hlink _ _ _ Hbj Hb) in Hv.
      rewrite (proj2 (strict_equals_eq _ _) eq_refl) in Hv. discriminate.
    + rewrite list_lookup_insert_ne in Hv by congruence.
      destruct (chain self !! (j + 1)%nat) as [next|] eqn:Hn; [|discriminate].
      rewrite (Hlink _ _ _ Hbj Hn) in Hv.
      rewrite (proj2 (strict_equals_eq _ _) eq_refl) in Hv. discriminate.
Qed.



Lemma stars_loop_ext (s s' : Blockchain) (address : string) :
  forall idxs stars,
    (forall i : nat, In i idxs -> chain s !! i = chain s' !! i) ->
    stars_loop s address idxs stars = stars_loop s' address idxs stars.
Proof.
  induction idxs as [|i idxs IH]; intros stars Hsame; [reflexivity|].
  cbn [stars_loop]. unfold element.
  rewrite <- (Hsame i) by (left; reflexivity).
  destruct (chain s !! i) as [bi|]; cbn [mbind Completion_bind];
    [|reflexivity].
  destruct (JSON_parse _) as [v|]; cbn [mbind Completion_bind];
    [|reflexivity].
  destruct (property v "address") as [thisadd|e];
    cbn [mbind Completion_bind]; [|reflexivity].
  destruct (loose_equals thisadd address) as [[|]|e];
    cbn [mbind Completion_bind]; [| |reflexivity].
  - destruct (property v "star"); cbn [mbind Completion_bind];
      [|reflexivity].
    apply IH. intros j Hj. apply Hsame. right. exact Hj.
  - apply IH. intros j Hj. apply Hsame. right. exact Hj.
Qed.

(** X14.  The owner query never reads the genesis block: replacing the
    block at index 0 by any other block changes nothing in what it
    returns. *)
Theorem X14_genesis_never_read (genesis genesis' : Block) (rest : list Block)
    (h : Z) (address : string) :
  getStarsByWalletAddress (mkBlockchain (genesis :: rest) h) address
  = getStarsByWalletAddress (mkBlockchain (genesis' :: rest) h) address.
Proof.
  unfold getStarsByWalletAddress. cbn [height].
  rewrite (stars_loop_ext (mkBlockchain (genesis :: rest) h)
             (mkBlockchain (genesis' :: rest) h)); [reflexivity|].
  intros i Hi. unfold indices in Hi. apply in_seq in Hi.
  destruct i as [|i]; [lia | reflexivity].
Qed.



Lemma stars_loop_null (self : Blockchain) (address : string)
    (i : nat) (b : Block) :
  chain self !! i = Some b ->
  JSON_parse (hex2ascii (BlockClass.body b)) = Some JNull ->
  forall idxs stars, In i idxs ->
    exists e, stars_loop self address idxs stars = Throw e.
Proof.
  intros Hb Hparse. induction idxs as [|j idxs IH]; intros stars Hin.
  - destruct Hin.
  - cbn [stars_loop].
    destruct (element (chain self) j) as [bj|e] eqn:Ej;
      cbn [mbind Completion_bind]; [|eauto].
    destruct (JSON_parse (hex2ascii (BlockClass.body bj))) as [v|] eqn:Ep;
      cbn [mbind Completion_bind]; [|eauto].
    destruct (property v "address") as [thisadd|e] eqn:Eprop;
      cbn [mbind Completion_bind]; [|eauto].
    destruct Hin as [->|Hin].
    { unfold element in Ej. rewrite Hb in Ej. injection Ej as <-.
      rewrite Hparse in Ep. injection Ep as <-. discriminate. }
    destruct (loose_equals thisadd address) as [[|]|e];
      cbn [mbind Completion_bind]; [| |eauto].
    + destruct (property v "star") as [star|e];
        cbn [mbind Completion_bind]; eauto.
    + eauto.
Qed.

(** X17.  A body that decodes into [null] is not a decode failure, yet
    reading its [address] throws: when a block after genesis, at an index
    up to the stored height, has such a body, the promise of the owner
    query is never settled. *)
Theorem X17_null_body_pending (self : Blockchain) (address : string)
    (i : nat) (b : Block) :
  (1 <= i)%nat ->
  Z.of_nat i <= height self ->
  chain self !! i = Some b ->
  JSON_parse (hex2ascii (BlockClass.body b)) = Some JNull ->
  getStarsByWalletAddress self address = Pending.
Proof.
  intros Hi Hh Hb Hparse. unfold getStarsByWalletAddress.
  destruct (stars_loop_null self address i b Hb Hparse
              (indices 1 (height self)) []) as [e ->]; [|reflexivity].
  unfold indices. apply in_seq. lia.
Qed.

Lemma filter_seq_pair (f : nat -> bool) (i : nat) :
  forall (n a : nat),
    (a <= i)%nat -> (i + 1 < a + n)%nat ->
    f i = true ->
    (forall j : nat, (a <= j < a + n)%nat -> j <> i -> j <> (i + 1)%nat ->
       f j = false) ->
    List.filter f (seq a n)
    = i :: (if f (i + 1)%nat then [(i + 1)%nat] else []).
Proof.
  induction n as [|n IH]; intros a Ha Hi Hfi Hf; [lia|].
  cbn [seq List.filter].
  destruct (decide (a = i)) as [->|Hne].
  - rewrite Hfi. f_equal.
    destruct n as [|n]; [lia|]. cbn [seq List.filter].
    replace (S i) with (i + 1)%nat by lia.
    rewrite (filter_none f (seq (S (i + 1)) n)).
    + destruct (f (i + 1)%nat); reflexivity.
    + intros j Hj. apply in_seq in Hj. apply Hf; lia.
  - rewrite (Hf a) by lia. apply IH; try lia; [exact Hfi|].
    intros j Hj. apply Hf. lia.
Qed.

(** X18.  A broken link is reported at the predecessor.  Take any state of
    the object and overwrite the block at index [i + 1] with a block that
    keeps the stored hash but whose previous hash is not the hash of block
    [i]: [validateChain] resolves with an error log that holds [i], and
    also [i + 1] exactly when the new block fails its self check. *)
Theorem X18_broken_link_reported (self : Blockchain) (i : nat)
    (bi b b' : Block) :
  reachable self ->
  chain self !! i = Some bi ->
  chain self !! (i + 1)%nat = Some b ->
  BlockClass.hash b' = BlockClass.hash b ->
  BlockClass.previousBlockHash b' <> BlockClass.hash bi ->
  validateChain (mkBlockchain (<[(i + 1)%nat:=b']> (chain self)) (height self))
  = Resolved (ErrorLog (i :: (if validate b' then [] else [(i + 1)%nat]))).
Proof.
  intros Hr Hbi Hb Hhash Hbroken.
  apply reachable_invariant in Hr as (Hc & _ & _ & Hval & Hlink).
  pose proof (lookup_lt_Some _ _ _ Hb) as Hi.
  set (self' := mkBlockchain (<[(i + 1)%nat:=b']> (chain self)) (height self)).
  assert (Hc' : consistent self')
    by (unfold consistent, self'; simpl; rewrite length_insert; exact Hc).
  rewrite (validateChain_log self' Hc'). cbv zeta.
  unfold self'. cbn [chain]. rewrite length_insert.
  assert (Hnext : forall (j : nat) bj next,
            chain self !! j = Some bj -> chain self !! (j + 1)%nat = Some next ->
            strict_equals (BlockClass.hash bj)
              (BlockClass.previousBlockHash next) = true).
  { intros j bj next Hj Hn. apply strict_equals_eq. symmetry.
    eapply Hlink; eassumption. }
  assert (Hat_i : violationb (<[(i + 1)%nat:=b']> (chain self)) i = true).
  { unfold violationb. rewrite list_lookup_insert_ne by lia. rewrite Hbi.
    rewrite list_lookup_insert_eq by exact Hi.
    destruct (strict_equals _ _) eqn:E.
    - apply strict_equals_eq in E. destruct Hbroken. symmetry. exact E.
    - apply orb_true_r. }
  assert (Hat_next : violationb (<[(i + 1)%nat:=b']> (chain self)) (i + 1)
                     = negb (validate b')).
  { unfold violationb. rewrite list_lookup_insert_eq by exact Hi.
    rewrite list_lookup_insert_ne by lia.
    destruct (chain self !! (i + 1 + 1)%nat) as [next|] eqn:Hn;
      [|apply orb_false_r].
    rewrite Hhash, (Hnext _ _ _ Hb Hn). apply orb_false_r. }
  rewrite (filter_seq_pair _ i); [|lia|lia|exact Hat_i|].
  - rewrite Hat_next. destruct (validate b'); reflexivity.
  - intros j Hj Hne Hne'. unfold violationb.
    rewrite list_lookup_insert_ne by lia.
    destruct (lookup_lt_is_Some_2 (chain self) j) as [bj Hbj]; [lia|].
    rewrite Hbj, (Hval _ _ Hbj). cbn [negb orb].
    rewrite list_lookup_insert_ne by lia.
    destruct (chain self !! (j + 1)%nat) as [next|] eqn:Hn; [|reflexivity].
    rewrite (Hnext _ _ _ Hbj Hn). reflexivity.
Qed.

End QueryExtras.

(** ** The model at work: a ledger with two claims *)

Section Examples.

#[local] Existing Instance Toy.collaborators.

Example split_three :
  JS.split ":" Toy.msg = ["alice"; "1700000010"; "starRegistry"].
Proof. reflexivity. Qed.

Example split_empty : JS.split ":" "" = [""].
Proof. reflexivity. Qed.

Example toString_clock : JS.toString 1700000000123 = "1700000000123".
Proof. vm_compute. reflexivity. Qed.

Example toString_negative : JS.toString (-45) = "-45".
Proof. vm_compute. reflexivity. Qed.

Example epoch_seconds_clock : epoch_seconds 1700000000123 = "1700000000".
Proof. vm_compute. reflexivity. Qed.

Example epoch_seconds_first_second : epoch_seconds 999 = "".
Proof. vm_compute. reflexivity. Qed.

Example parseInt_prefix : JS.parseInt (Some " 42abc") = Some 42.
Proof. reflexivity. Qed.

Example parseInt_hex : JS.parseInt (Some "0x1f") = Some 31.
Proof. reflexivity. Qed.

Example parseInt_negative : JS.parseInt (Some "-17") = Some (-17).
Proof. reflexivity. Qed.

Example parseInt_undefined : JS.parseInt None = None.
Proof. reflexivity. Qed.

Example parseInt_no_digit : JS.parseInt (Some "starRegistry") = None.
Proof. reflexivity. Qed.

Example five_minutes_sharp :
  less_than_5 (minutes_laps (Some 1700000300) (Some 1700000000)) = false
  /\ less_than_5 (minutes_laps (Some 1700000299) (Some 1700000000)) = true.
Proof. split; reflexivity. Qed.

Lemma ledger2_reachable : reachable Toy.ledger2.
Proof.
  exact (reachable_run
           (OpSubmitStar (Toy.t0 + 90000) (Toy.t0 + 90002)
              "bob" "bob:1700000080:starRegistry"
              "bob:1700000080:starRegistrybob" (JString "Deneb")) _
           (reachable_run
              (OpSubmitStar (Toy.t0 + 20000) (Toy.t0 + 20001)
                 "alice" "alice:1700000010:starRegistry"
                 "alice:1700000010:starRegistryalice" (JString "Vega")) _
              (reachable_new Toy.t0))).
Qed.

Lemma ledger2_consistent : consistent Toy.ledger2.
Proof. reflexivity. Qed.

Lemma ledger2_untampered : untampered (chain Toy.ledger2).
Proof. apply (reachable_invariant _ ledger2_reachable). Qed.

Lemma corrupted_consistent : consistent Toy.corrupted.
Proof. reflexivity. Qed.


(** The end-to-end run of the specification: the new ledger has height 0
    and length 1; a challenge issued for an address has the shape
    [address:seconds:starRegistry]; a submission within the window is
    appended at height 1 with the hash of genesis as its previous hash; the
    same submission 301 seconds after the challenge is rejected and the
    length stays 2. *)
Example end_to_end :
  let bc0 := constructor Toy.t0 in
  let msg := Toy.msg in
  let submit now bc :=
    submitStar now (now + 1) bc "alice" Toy.msg Toy.signed_msg
      (JString "Vega") in
  height bc0 = 0 /\ length (chain bc0) = 1%nat
  /\ requestMessageOwnershipVerification (Toy.t0 + 10000) "alice"
     = Resolved msg
  /\ (exists b, (submit (Toy.t0 + 20000) bc0).1.2 = Resolved b
        /\ BlockClass.height b = 1
        /\ BlockClass.previousBlockHash b
           = from_option BlockClass.hash None (head (chain bc0)))
  /\ length (chain (submit (Toy.t0 + 20000) bc0).1.1) = 2%nat
  /\ submit (Toy.t0 + 311000) (submit (Toy.t0 + 20000) bc0).1.1
     = ((submit (Toy.t0 + 20000) bc0).1.1, Rejected null, [err_time_lapsed]).
Proof.
  vm_compute. repeat split. eexists. repeat split.
Qed.

(** Overwriting the body of block 1 is reported at index 1. *)
Example tampered_body_reported :
  validateChain Toy.corrupted = Resolved (ErrorLog [1%nat]).
Proof. vm_compute. reflexivity. Qed.

Lemma C1_hash_chain_linkage_witness :
  reachable Toy.ledger2 /\ linked (chain Toy.ledger2).
Proof.
  split; [exact ledger2_reachable|].
  destruct (C1_hash_chain_linkage Toy.ledger2 ledger2_reachable)
    as (Hgenesis & Hlinked & _).
  split; [exact Hgenesis | exact Hlinked].
Defined.

Lemma C9_heights_contiguous_witness :
  reachable Toy.ledger2
  /\ chain Toy.ledger2 <> []
  /\ heights_contiguous (chain Toy.ledger2).
Proof.
  split; [exact ledger2_reachable|].
  destruct (C9_heights_contiguous Toy.ledger2 ledger2_reachable)
    as (Hne & Hh & _).
  split; [exact Hne | exact Hh].
Defined.

Lemma C10_height_counter_witness :
  reachable Toy.ledger2
  /\ height Toy.ledger2 = 2
  /\ getChainHeight Toy.ledger2 = Resolved 2.
Proof.
  split; [exact ledger2_reachable|].
  destruct (C10_height_counter Toy.ledger2 ledger2_reachable)
    as (Hh & Hg & _).
  split; [exact Hh | exact Hg].
Defined.

Lemma C2_time_window_witness :
  curr_time (Toy.t0 + 310000) = Some 1700000310
  /\ sent_time Toy.msg = Some 1700000010
  /\ submitStar (Toy.t0 + 310000) (Toy.t0 + 310001) Toy.ledger1
       "alice" Toy.msg Toy.signed_msg (JString "Vega")
     = (Toy.ledger1, Rejected null, [err_time_lapsed]).
Proof.
  assert (Hcurr : curr_time (Toy.t0 + 310000) = Some 1700000310)
    by (vm_compute; reflexivity).
  assert (Hsent : sent_time Toy.msg = Some 1700000010)
    by (vm_compute; reflexivity).
  split; [exact Hcurr|]. split; [exact Hsent|].
  apply (proj1 (C2_time_window (Toy.t0 + 310000) (Toy.t0 + 310001)
                  Toy.ledger1 "alice" Toy.msg Toy.signed_msg (JString "Vega")
                  1700000310 1700000010 Hcurr Hsent)).
  lia.
Defined.

(** A well-formed signature of somebody else is rejected. *)
Example wrong_signature_rejected :
  verify Toy.msg "alice" (Toy.msg ++ "mallory")%string = Normal false
  /\ submitStar (Toy.t0 + 20000) (Toy.t0 + 20001) Toy.ledger1
       "alice" Toy.msg (Toy.msg ++ "mallory")%string (JString "Vega")
     = (Toy.ledger1, Rejected null, [err_verification]).
Proof. split; vm_compute; reflexivity. Qed.

Lemma C3_signature_check_witness :
  curr_time (Toy.t0 + 20000) = Some 1700000020
  /\ sent_time Toy.msg = Some 1700000010
  /\ verify Toy.msg "alice" "forged" = Throw Error
  /\ submitStar (Toy.t0 + 20000) (Toy.t0 + 20001) Toy.ledger1
       "alice" Toy.msg "forged" (JString "Vega")
     = (Toy.ledger1, Pending, []).
Proof.
  assert (Hcurr : curr_time (Toy.t0 + 20000) = Some 1700000020)
    by (vm_compute; reflexivity).
  assert (Hsent : sent_time Toy.msg = Some 1700000010)
    by (vm_compute; reflexivity).
  assert (Hver : verify Toy.msg "alice" "forged" = Throw Error)
    by (vm_compute; reflexivity).
  assert (Hel : 1700000020 - 1700000010 < 300) by lia.
  split; [exact Hcurr|]. split; [exact Hsent|]. split; [exact Hver|].
  exact (proj2 (proj1 (C3_signature_check (Toy.t0 + 20000) (Toy.t0 + 20001)
                         Toy.ledger1 "alice" Toy.msg "forged" (JString "Vega"))
                  1700000020 1700000010 Hcurr Hsent Hel) Error Hver).
Defined.

(** A message with four fields, signed, and submitted ten seconds after
    its timestamp, is accepted: nothing looks at the number of fields. *)
Lemma C4_counterexample :
  length (JS.split ":" Toy.msg4) = 4%nat
  /\ exists b,
       submitStar (Toy.t0 + 20000) (Toy.t0 + 20001) Toy.ledger1
         "alice" Toy.msg4 Toy.signed_msg4 (JString "Vega")
       = (mkBlockchain (chain Toy.ledger1 ++ [b]) 2, Resolved b, []).
Proof.
  split; [reflexivity|]. eexists. vm_compute. reflexivity.
Qed.

Lemma C4_no_shape_check_witness :
  (length (JS.split ":" "alice") < 2)%nat
  /\ submitStar (Toy.t0 + 20000) (Toy.t0 + 20001) Toy.ledger1
       "alice" "alice" "alicealice" (JString "Vega")
     = (Toy.ledger1, Rejected null, [err_time_lapsed]).
Proof.
  assert (Hlen : (length (JS.split ":" "alice") < 2)%nat) by (simpl; lia).
  split; [exact Hlen|].
  apply (proj1 (C4_no_shape_check (Toy.t0 + 20000) (Toy.t0 + 20001)
                  Toy.ledger1 "alice" "alice" "alicealice" (JString "Vega"))).
  left. exact Hlen.
Defined.

(** On an untampered ledger the validator resolves with [true], which is
    not the empty list. *)
Lemma C5_counterexample :
  consistent Toy.ledger2 /\ untampered (chain Toy.ledger2)
  /\ validateChain Toy.ledger2 <> Resolved (ErrorLog []).
Proof.
  split; [exact ledger2_consistent|]. split; [exact ledger2_untampered|].
  vm_compute. discriminate.
Qed.

Lemma C5_validateChain_untampered_witness :
  consistent Toy.ledger2 /\ untampered (chain Toy.ledger2)
  /\ validateChain Toy.ledger2 = Resolved ValidTrue.
Proof.
  split; [exact ledger2_consistent|]. split; [exact ledger2_untampered|].
  exact (C5_validateChain_untampered Toy.ledger2
           ledger2_consistent ledger2_untampered).
Defined.

Lemma C6_validateChain_complete_witness :
  consistent Toy.corrupted
  /\ exists errorLog : list nat,
       validateChain Toy.corrupted
       = Resolved (match errorLog with
                   | [] => ValidTrue
                   | _ :: _ => ErrorLog errorLog
                   end)
       /\ (forall i : nat, In i errorLog <-> violation (chain Toy.corrupted) i)
       /\ (forall b, last (chain Toy.corrupted) = Some b ->
             (In (length (chain Toy.corrupted) - 1)%nat errorLog
              <-> validate b = false))
       /\ StronglySorted lt errorLog.
Proof.
  split; [exact corrupted_consistent|].
  exact (C6_validateChain_complete Toy.corrupted corrupted_consistent).
Defined.


(** The body of block 1 does not decode, and the query does not reject:
    its promise stays pending. *)
Lemma C8_counterexample :
  (exists b, chain Toy.corrupted !! 1%nat = Some b
     /\ JSON_parse (hex2ascii (BlockClass.body b)) = None)
  /\ getStarsByWalletAddress Toy.corrupted "bob" = Pending
  /\ ~ exists reason,
         getStarsByWalletAddress Toy.corrupted "bob" = Rejected reason.
Proof.
  split; [eexists; split; reflexivity|].
  split; [reflexivity|].
  intros [reason Hr]. vm_compute in Hr. discriminate.
Qed.

Lemma C8_decode_failure_pending_witness :
  (1 <= 1)%nat /\ 1 <= height Toy.corrupted
  /\ (exists b, chain Toy.corrupted !! 1%nat = Some b
        /\ JSON_parse (hex2ascii (BlockClass.body b)) = None)
  /\ getStarsByWalletAddress Toy.corrupted "alice" = Pending.
Proof.
  assert (H1 : (1 <= 1)%nat) by lia.
  assert (Hh : Z.of_nat 1 <= height Toy.corrupted)
    by (vm_compute; discriminate).
  split; [exact H1|]. split; [exact Hh|].
  split; [eexists; split; reflexivity|].
  eapply (C8_decode_failure_pending Toy.corrupted "alice" 1 _ H1 Hh);
    reflexivity.
Defined.

(** *** The further properties on the same ledgers *)

Lemma ledger1_reachable : reachable Toy.ledger1.
Proof.
  exact (reachable_run
           (OpSubmitStar (Toy.t0 + 20000) (Toy.t0 + 20001)
              "alice" "alice:1700000010:starRegistry"
              "alice:1700000010:starRegistryalice" (JString "Vega")) _
           (reachable_new Toy.t0)).
Qed.

Lemma alice_no_colon : no_colon "alice".
Proof. repeat constructor; discriminate. Qed.

Lemma bob_submitted :
  submitStar (Toy.t0 + 90000) (Toy.t0 + 90002) Toy.ledger1
    "bob" Toy.bob_msg Toy.bob_signed (JString "Deneb")
  = (Toy.ledger2, Resolved Toy.bob_block, []).
Proof. vm_compute. reflexivity. Qed.

Lemma X1_issued_challenge_witness :
  1000 <= Toy.t0 + 10000 /\ no_colon "alice"
  /\ exists message,
       requestMessageOwnershipVerification (Toy.t0 + 10000) "alice"
       = Resolved message
       /\ JS.split ":" message
          = ["alice"; epoch_seconds (Toy.t0 + 10000); "starRegistry"]
       /\ sent_time message = Some ((Toy.t0 + 10000) / 1000)
       /\ sent_time message = curr_time (Toy.t0 + 10000).
Proof.
  assert (Hnow : 1000 <= Toy.t0 + 10000) by (vm_compute; discriminate).
  split; [exact Hnow|]. split; [exact alice_no_colon|].
  exact (X1_issued_challenge (Toy.t0 + 10000) "alice" Hnow alice_no_colon).
Defined.

Lemma X2_window_in_milliseconds_witness :
  1000 <= Toy.t0 + 10000 /\ 1000 <= Toy.t0 + 309000 /\ no_colon "alice"
  /\ requestMessageOwnershipVerification (Toy.t0 + 10000) "alice"
     = Resolved Toy.msg
  /\ Toy.t0 + 309000 - (Toy.t0 + 10000) <= 299000
  /\ exists b,
       (submitStar (Toy.t0 + 309000) (Toy.t0 + 309001) Toy.ledger1
          "alice" Toy.msg Toy.signed_msg (JString "Vega")).1.2 = Resolved b.
Proof.
  assert (Hissued : 1000 <= Toy.t0 + 10000) by (vm_compute; discriminate).
  assert (Hnow : 1000 <= Toy.t0 + 309000) by (vm_compute; discriminate).
  assert (Hmsg : requestMessageOwnershipVerification (Toy.t0 + 10000) "alice"
                 = Resolved Toy.msg) by (vm_compute; reflexivity).
  assert (Hms : Toy.t0 + 309000 - (Toy.t0 + 10000) <= 299000) by lia.
  split; [exact Hissued|]. split; [exact Hnow|].
  split; [exact alice_no_colon|]. split; [exact Hmsg|]. split; [exact Hms|].
  rewrite (proj1 (X2_window_in_milliseconds (Toy.t0 + 10000)
                    (Toy.t0 + 309000) (Toy.t0 + 309001) Toy.ledger1
                    "alice" Toy.msg Toy.signed_msg (JString "Vega")
                    Hissued Hnow alice_no_colon Hmsg) Hms).
  vm_compute. eexists. reflexivity.
Defined.

Lemma X3_clock_in_seconds_witness :
  1000 <= Toy.t0 + 20001
  /\ curr_time (Toy.t0 + 20001) = Some 1700000020.
Proof.
  assert (Hnow : 1000 <= Toy.t0 + 20001) by (vm_compute; discriminate).
  split; [exact Hnow|].
  exact (proj1 (X3_clock_in_seconds (Toy.t0 + 20001) Toy.ledger1
                  Toy.bob_block Hnow)).
Defined.

Lemma X4_accepted_submission_witness :
  curr_time (Toy.t0 + 90000) = Some 1700000090
  /\ sent_time Toy.bob_msg = Some 1700000080
  /\ verify Toy.bob_msg "bob" Toy.bob_signed = Normal true
  /\ exists b,
       submitStar (Toy.t0 + 90000) (Toy.t0 + 90002) Toy.ledger1
         "bob" Toy.bob_msg Toy.bob_signed (JString "Deneb")
       = (mkBlockchain (chain Toy.ledger1 ++ [b]) (height Toy.ledger1 + 1),
          Resolved b, [])
       /\ BlockClass.height b = Z.of_nat (length (chain Toy.ledger1))
       /\ BlockClass.body b
          = encode (star_data "bob" Toy.bob_signed Toy.bob_msg
                      (JString "Deneb"))
       /\ BlockClass.time b = epoch_seconds (Toy.t0 + 90002)
       /\ BlockClass.previousBlockHash b
          = from_option BlockClass.hash None (last (chain Toy.ledger1))
       /\ validate b = true.
Proof.
  assert (Hcurr : curr_time (Toy.t0 + 90000) = Some 1700000090)
    by (vm_compute; reflexivity).
  assert (Hsent : sent_time Toy.bob_msg = Some 1700000080)
    by (vm_compute; reflexivity).
  assert (Hver : verify Toy.bob_msg "bob" Toy.bob_signed = Normal true)
    by (vm_compute; reflexivity).
  assert (Hel : 1700000090 - 1700000080 < 300) by lia.
  split; [exact Hcurr|]. split; [exact Hsent|]. split; [exact Hver|].
  exact (X4_accepted_submission (Toy.t0 + 90000) (Toy.t0 + 90002) Toy.ledger1
           "bob" Toy.bob_msg Toy.bob_signed (JString "Deneb")
           1700000090 1700000080 Hcurr Hsent Hel Hver).
Defined.

Lemma X5_initializeChain_once_witness :
  reachable Toy.ledger2
  /\ initializeChain (Toy.t0 + 100000) Toy.ledger2 = Toy.ledger2.
Proof.
  split; [exact ledger2_reachable|].
  exact (proj1 (X5_initializeChain_once (Toy.t0 + 100000) Toy.ledger2
                  ledger2_reachable)).
Defined.

Lemma X7_getBlockByHeight_witness :
  reachable Toy.ledger2
  /\ (exists b, getBlockByHeight Toy.ledger2 1 = Resolved (Some b)
        /\ chain Toy.ledger2 !! Z.to_nat 1 = Some b
        /\ BlockClass.height b = 1)
  /\ getBlockByHeight Toy.ledger2 3 = Resolved None.
Proof.
  split; [exact ledger2_reachable|].
  destruct (X7_getBlockByHeight Toy.ledger2 1 ledger2_reachable) as [Hin _].
  destruct (X7_getBlockByHeight Toy.ledger2 3 ledger2_reachable) as [_ Hout].
  split; [apply Hin; vm_compute; split; discriminate|].
  apply Hout. right. vm_compute. reflexivity.
Defined.

Lemma X9_submitted_block_found_witness :
  reachable Toy.ledger1
  /\ (submitStar (Toy.t0 + 90000) (Toy.t0 + 90002) Toy.ledger1
        "bob" Toy.bob_msg Toy.bob_signed (JString "Deneb")).1.2
     = Resolved Toy.bob_block
  /\ getBlockByHeight Toy.ledger2 2 = Resolved (Some Toy.bob_block)
  /\ getChainHeight Toy.ledger2 = Resolved 2.
Proof.
  assert (Hres : (submitStar (Toy.t0 + 90000) (Toy.t0 + 90002) Toy.ledger1
                    "bob" Toy.bob_msg Toy.bob_signed (JString "Deneb")).1.2
                 = Resolved Toy.bob_block)
    by (rewrite bob_submitted; reflexivity).
  split; [exact ledger1_reachable|]. split; [exact Hres|].
  destruct (X9_submitted_block_found (Toy.t0 + 90000) (Toy.t0 + 90002)
              Toy.ledger1 "bob" Toy.bob_msg Toy.bob_signed (JString "Deneb")
              Toy.bob_block _ ledger1_reachable Hres eq_refl)
    as (Hheight & Hchain & _).
  split; [exact Hheight | exact Hchain].
Defined.

Lemma X10_reachable_ledger_validates_witness :
  reachable Toy.ledger2 /\ validateChain Toy.ledger2 = Resolved ValidTrue.
Proof.
  split; [exact ledger2_reachable|].
  exact (X10_reachable_ledger_validates Toy.ledger2 ledger2_reachable).
Defined.

Lemma X11_tampered_block_reported_witness :
  reachable Toy.ledger2
  /\ chain Toy.ledger2 !! 1%nat = Some Toy.alice_block
  /\ validate (Toy.tamper_body "alice|Sirius" Toy.alice_block) = false
  /\ validateChain
       (mkBlockchain
          (<[1%nat:=Toy.tamper_body "alice|Sirius" Toy.alice_block]>
             (chain Toy.ledger2))
          (height Toy.ledger2))
     = Resolved (ErrorLog [1%nat]).
Proof.
  assert (Hb : chain Toy.ledger2 !! 1%nat = Some Toy.alice_block)
    by (vm_compute; reflexivity).
  assert (Hbad : validate (Toy.tamper_body "alice|Sirius" Toy.alice_block)
                 = false) by (vm_compute; reflexivity).
  split; [exact ledger2_reachable|]. split; [exact Hb|]. split; [exact Hbad|].
  exact (X11_tampered_block_reported Toy.ledger2 1 Toy.alice_block
           (Toy.tamper_body "alice|Sirius" Toy.alice_block)
           ledger2_reachable Hb eq_refl eq_refl Hbad).
Defined.




Lemma X17_null_body_pending_witness :
  (1 <= 1)%nat /\ 1 <= height Toy.null_body
  /\ (exists b, chain Toy.null_body !! 1%nat = Some b
        /\ @JSON_parse Toy.with_null
             (@hex2ascii Toy.with_null (BlockClass.body b)) = Some JNull)
  /\ @getStarsByWalletAddress Toy.with_null Toy.null_body "bob" = Pending.
Proof.
  assert (H1 : (1 <= 1)%nat) by lia.
  assert (Hh : Z.of_nat 1 <= height Toy.null_body)
    by (vm_compute; discriminate).
  split; [exact H1|]. split; [exact Hh|].
  split; [eexists; split; reflexivity|].
  eapply (@X17_null_body_pending Toy.with_null Toy.null_body "bob" 1 _ H1 Hh);
    reflexivity.
Defined.

Lemma X18_broken_link_reported_witness :
  reachable Toy.ledger2
  /\ chain Toy.ledger2 !! 1%nat = Some Toy.alice_block
  /\ chain Toy.ledger2 !! 2%nat = Some Toy.bob_block
  /\ BlockClass.previousBlockHash Toy.forged_link
     <> BlockClass.hash Toy.alice_block
  /\ validateChain
       (mkBlockchain (<[2%nat:=Toy.forged_link]> (chain Toy.ledger2))
          (height Toy.ledger2))
     = Resolved (ErrorLog [1%nat; 2%nat]).
Proof.
  assert (Hbi : chain Toy.ledger2 !! 1%nat = Some Toy.alice_block)
    by (vm_compute; reflexivity).
  assert (Hb : chain Toy.ledger2 !! (1 + 1)%nat = Some Toy.bob_block)
    by (vm_compute; reflexivity).
  assert (Hbroken : BlockClass.previousBlockHash Toy.forged_link
                    <> BlockClass.hash Toy.alice_block)
    by (vm_compute; discriminate).
  split; [exact ledger2_reachable|]. split; [exact Hbi|]. split; [exact Hb|].
  split; [exact Hbroken|].
  exact (X18_broken_link_reported Toy.ledger2 1 Toy.alice_block Toy.bob_block
           Toy.forged_link ledger2_reachable Hbi Hb eq_refl Hbroken).
Defined.

Lemma X15_only_submissions_append_witness :
  reachable Toy.ledger1
  /\ (run (OpSubmitStar (Toy.t0 + 400000) (Toy.t0 + 400001)
             "alice" Toy.msg Toy.signed_msg (JString "Vega")) Toy.ledger1
      = Toy.ledger1
      \/ exists now now_add address message signature star b,
           OpSubmitStar (Toy.t0 + 400000) (Toy.t0 + 400001)
             "alice" Toy.msg Toy.signed_msg (JString "Vega")
           = OpSubmitStar now now_add address message signature star
           /\ (submitStar now now_add Toy.ledger1 address message signature
                 star).1.2 = Resolved b
           /\ run (OpSubmitStar (Toy.t0 + 400000) (Toy.t0 + 400001)
                     "alice" Toy.msg Toy.signed_msg (JString "Vega"))
                Toy.ledger1
              = mkBlockchain (chain Toy.ledger1 ++ [b])
                  (height Toy.ledger1 + 1)).
Proof.
  split; [exact ledger1_reachable|].
  exact (X15_only_submissions_append _ Toy.ledger1 ledger1_reachable).
Defined.

End Examples.
